(** * Periodic operations and the log-upload worker of the Azure Linux agent

    A shallow embedding of
      - [azurelinuxagent/ga/periodic_operation.py] (class [PeriodicOperation],
        in its two variants: the file carries both sides of a merge, [HEAD]
        and [release-2.2.53]);
      - [azurelinuxagent/ga/log_upload.py] (class [LogUploadHandler]).

    Conventions of the embedding.
      - A [datetime] is an integer number of microseconds since the epoch and
        a [timedelta] an integer number of microseconds (Python keeps both at
        microsecond resolution).  A [datetime] lies between the years 1 and
        9999: adding the period of a task, which the host chooses, to a
        reading of the clock raises [OverflowError] when the sum leaves
        that range, and the model has it so.  The readings of the clock
        themselves are taken to lie far enough inside the range for the
        two fixed constants of one hour to be added to them.
      - Every call of [datetime.datetime.utcnow()] is a separate reading of
        the wall clock.  The readings, and the outcomes of the collaborators
        (the registered operation, the protocol, the log collector), are the
        inputs of a call, gathered in an environment record with one field
        per call site.
      - Operations fail by raising an instance of Python's [Exception]; this
        is what [except Exception] handles.  The signals of the interpreter
        that are not [Exception]s ([SystemExit], [KeyboardInterrupt]) are
        outside the model.
      - What the code does to the outside (logging, telemetry events,
        sleeping, calls of collaborators) is recorded in a trace of events. *)

From Stdlib Require Import ZArith QArith Qfield List Ascii String Bool Lia DecimalString.
From Stdlib Require Import Permutation.
Import ListNotations.

Local Open Scope string_scope.
Local Open Scope list_scope.
Local Open Scope Z_scope.

(** ** The Python runtime, as far as the two files use it *)

Module Py.

(** An instance of [Exception]: its class and [ustr(e)]. *)
Record Exception : Type := mkException {
  exc_class : string;
  ustr : string
}.

Definition ValueError (text : string) : Exception := mkException "ValueError" text.
Definition TypeError (text : string) : Exception := mkException "TypeError" text.
Definition AttributeError (text : string) : Exception := mkException "AttributeError" text.
Definition OverflowError (text : string) : Exception := mkException "OverflowError" text.

(** What a call of a collaborator does: it returns, or it raises. *)
Inductive Outcome (A : Type) : Type :=
| Returns (a : A)
| Raises (e : Exception).
Arguments Returns {A} a.
Arguments Raises {A} e.

Definition datetime : Type := Z.
Definition timedelta : Type := Z.

Definition timedelta_of_seconds (s : Z) : timedelta := s * 1000000.
Definition timedelta_of_minutes (m : Z) : timedelta := timedelta_of_seconds (m * 60).
Definition timedelta_of_hours (h : Z) : timedelta := timedelta_of_seconds (h * 3600).

(** The three attributes of a (normalised) [timedelta]: [days] may be
    negative, [0 <= seconds < 86400] and [0 <= microseconds < 10^6]. *)
Definition days (td : timedelta) : Z := td / 86400000000.
Definition seconds (td : timedelta) : Z := (td mod 86400000000) / 1000000.
Definition microseconds (td : timedelta) : Z := td mod 1000000.

(** The range of [datetime]: [datetime.min] is 0001-01-01 00:00:00 and
    [datetime.max] is 9999-12-31 23:59:59.999999, here in microseconds since
    1970-01-01. *)
Definition datetime_min : datetime := -62135596800000000.
Definition datetime_max : datetime := 253402300799999999.

Definition datetime_in_range (d : Z) : bool :=
  (datetime_min <=? d) && (d <=? datetime_max).

(** [d + td] for a [datetime] and a [timedelta]: [OverflowError] when the
    result is not a [datetime]. *)
Definition datetime_plus (d : datetime) (td : timedelta) : Outcome datetime :=
  if datetime_in_range (d + td) then Returns (d + td)
  else Raises (OverflowError "date value out of range").

(** [str(n)] for an integer. *)
Definition str_of_int (n : Z) : string := NilZero.string_of_int (Z.to_int n).

(** The observable effects. *)
Inductive Event : Type :=
| OperationCalled (name : string)            (* self._operation() *)
| LoggerWarn (msg : string)                  (* logger.warn *)
| LoggerInfo (msg : string)                  (* logger.info *)
| AddEvent (is_success : bool) (message : string)   (* add_event(op=LogUpload, ...) *)
| TimeSleep (secs : Q)                       (* time.sleep *)
| UpdateHostPluginCalled                     (* protocol.update_host_plugin_from_goal_state() *)
| CollectLogsCalled                          (* log_collector.collect_logs() *)
| PutVmLogsCalled.                           (* protocol.put_vm_logs() *)

Definition Trace : Type := list Event.

(** *** Computations over an object [S]: state, trace and exceptions

    A method body is a function from the object's state to an outcome, the
    new state and the events it produced.  A raised exception keeps the
    state changes and the events made before it (Python mutates in place). *)

Definition M (S A : Type) : Type := S -> Outcome A * S * Trace.

Definition ret {S A} (a : A) : M S A := fun s => (Returns a, s, []).

Definition raise {S A} (e : Exception) : M S A := fun s => (Raises e, s, []).

Definition bind {S A B} (m : M S A) (k : A -> M S B) : M S B :=
  fun s =>
    match m s with
    | (Returns a, s1, t1) => let '(r, s2, t2) := k a s1 in (r, s2, t1 ++ t2)
    | (Raises e, s1, t1) => (Raises e, s1, t1)
    end.

Definition get {S} : M S S := fun s => (Returns s, s, []).
Definition modify {S} (f : S -> S) : M S unit := fun s => (Returns tt, f s, []).
Definition emit {S} (ev : Event) : M S unit := fun s => (Returns tt, s, [ev]).

(** The outcome of a collaborator, taken from the environment. *)
Definition perform {S A} (o : Outcome A) : M S A := fun s => (o, s, []).

(** [try: body finally: fin]: [fin] runs whatever [body] did; the outcome is
    that of [body] unless [fin] itself raises. *)
Definition try_finally {S A} (body : M S A) (fin : M S unit) : M S A :=
  fun s =>
    let '(r, s1, t1) := body s in
    match fin s1 with
    | (Returns _, s2, t2) => (r, s2, t1 ++ t2)
    | (Raises e, s2, t2) => (Raises e, s2, t1 ++ t2)
    end.

(** [try: body except Exception as e: handler(e)]. *)
Definition try_except {S A} (body : M S A) (handler : Exception -> M S A) : M S A :=
  fun s =>
    match body s with
    | (Returns a, s1, t1) => (Returns a, s1, t1)
    | (Raises e, s1, t1) => let '(r, s2, t2) := handler e s1 in (r, s2, t1 ++ t2)
    end.

Module Notations.
Notation "x <- m ;; k" := (bind m (fun x => k))
  (at level 61, m at next level, right associativity).
Notation "m ;; k" := (bind m (fun _ => k))
  (at level 61, right associativity).
End Notations.

(** Projections of a finished computation. *)
Definition outcome_of {A S} (r : Outcome A * S * Trace) : Outcome A := fst (fst r).
Definition state_of {A S} (r : Outcome A * S * Trace) : S := snd (fst r).
Definition trace_of {A S} (r : Outcome A * S * Trace) : Trace := snd r.

(** [min(l)] on a list of datetimes: [ValueError] on the empty list. *)
Definition min (l : list datetime) : Outcome datetime :=
  match l with
  | [] => Raises (ValueError "min() arg is an empty sequence")
  | x :: rest => Returns (fold_left Z.min rest x)
  end.

(** Counting events in a trace. *)
Definition is_warning (ev : Event) : bool :=
  match ev with LoggerWarn _ => true | _ => false end.
Definition is_operation_call (ev : Event) : bool :=
  match ev with OperationCalled _ => true | _ => false end.
Definition is_sleep (ev : Event) : bool :=
  match ev with TimeSleep _ => true | _ => false end.
Definition is_failure_event (ev : Event) : bool :=
  match ev with AddEvent false _ => true | _ => false end.
Definition is_success_event (ev : Event) : bool :=
  match ev with AddEvent true _ => true | _ => false end.
Definition is_upload (ev : Event) : bool :=
  match ev with PutVmLogsCalled => true | _ => false end.

Definition count (p : Event -> bool) (t : Trace) : nat := List.length (List.filter p t).

Definition option_eqb {A} (eqb : A -> A -> bool) (x y : option A) : bool :=
  match x, y with
  | Some a, Some b => eqb a b
  | None, None => true
  | _, _ => false
  end.

End Py.

Import Py Py.Notations.

(** ** periodic_operation.py, the [release-2.2.53] side *)

Module PeriodicOperation.

(** The [period] argument of the constructor: a [datetime.timedelta], or a
    number of seconds (an integer here, of a size that
    [timedelta(seconds=...)] accepts; beyond 999999999 days that constructor
    raises and no task is made). *)
Inductive PeriodArg : Type :=
| Timedelta (td : timedelta)
| Number (secs : Z).

(** The attributes of an instance.  [_operation] is a callable of the host;
    what a call of it does is an input of [run]. *)
Record t : Type := mk {
  _name : string;
  _period : timedelta;
  _next_run_time : datetime;
  _last_warning : option string;
  _last_warning_time : option datetime
}.

Definition set_next_run_time (v : datetime) (self : t) : t :=
  mk (_name self) (_period self) v (_last_warning self) (_last_warning_time self).

Definition set_last_warning (w : string) (at_ : datetime) (self : t) : t :=
  mk (_name self) (_period self) (_next_run_time self) (Some w) (Some at_).

(** [_LOG_WARNING_PERIOD = datetime.timedelta(minutes=60)] *)
Definition _LOG_WARNING_PERIOD : timedelta := timedelta_of_minutes 60.

(** [__init__(self, name, operation, period)]; [utcnow] is the reading of the
    clock taken by the constructor. *)
Definition __init__ (utcnow : datetime) (name : string) (period : PeriodArg) : t :=
  mk name
     (match period with
      | Timedelta td => td
      | Number secs => timedelta_of_seconds secs
      end)
     utcnow
     None
     None.

(** The inputs of one call of [run]: the clock at each of its four
    [utcnow()] sites and what the operation does when called. *)
Record RunEnv : Type := mkRunEnv {
  at_check : datetime;           (* in the due test *)
  operation : Outcome unit;      (* self._operation() *)
  at_finally : datetime;         (* in the finally clause *)
  at_warning_check : datetime;   (* in the cool-down test *)
  at_warning_update : datetime   (* stored in _last_warning_time *)
}.

(** The text of the warning. *)
Definition warning_text (name : string) (e : Exception) : string :=
  ("Failed to " ++ name ++ ": " ++ ustr e
     ++ " --- [NOTE: Will not log the same error for the next hour]")%string.

(** The test guarding [logger.warn], on the two attributes it reads; [or]
    evaluates left to right and stops at the first true operand, so the
    clock is read only when the first two operands are false. *)
Definition should_warn (env : RunEnv) (last_warning : option string)
    (last_warning_time : option datetime) (warning : string) : bool :=
  if negb (option_eqb String.eqb (Some warning) last_warning) then true
  else match last_warning_time with
       | None => true
       | Some last => last + _LOG_WARNING_PERIOD <=? at_warning_check env
       end.

(** The body of [except Exception as e]. *)
Definition report_failure (env : RunEnv) (e : Exception) : M t unit :=
  self <- get ;;
  let warning := warning_text (_name self) e in
  if should_warn env (_last_warning self) (_last_warning_time self) warning then
    emit (LoggerWarn warning) ;;
    modify (set_last_warning warning (at_warning_update env))
  else ret tt.

(** [run(self)].  The sum in the [finally] clause can raise; its exception
    then takes the place of the one the operation may have raised, and the
    assignment is not made. *)
Definition run (env : RunEnv) : M t unit :=
  try_except
    (self <- get ;;
     if _next_run_time self <=? at_check env then
       try_finally
         (emit (OperationCalled (_name self)) ;; perform (operation env))
         (self <- get ;;
          next <- perform (datetime_plus (at_finally env) (_period self)) ;;
          modify (set_next_run_time next))
     else ret tt)
    (report_failure env).

Definition next_run_time (self : t) : datetime := _next_run_time self.

(** [sleep_seconds], computed by hand from the three attributes of the
    timedelta.  The source computes it in binary floating point; here it is
    the exact rational, of which the double passed to [time.sleep] is a
    rounding (the nearest double as long as the timedelta is below 2^53
    microseconds, some 285 years; the same sign always). *)
Definition sleep_seconds_of (sleep_timedelta : timedelta) : Q :=
  ((inject_Z (days sleep_timedelta * 24 * 3600 + seconds sleep_timedelta) * (10 ^ 6)
    + inject_Z (microseconds sleep_timedelta)) / (10 ^ 6))%Q.

(** [sleep_until_next_operation(operations)] (a static method); [utcnow] is
    its one reading of the clock. *)
Definition sleep_until_next_operation (utcnow : datetime) (operations : list t) : M unit unit :=
  next_operation_time <- perform (Py.min (map next_run_time operations)) ;;
  let sleep_timedelta := next_operation_time - utcnow in
  let sleep_seconds := sleep_seconds_of sleep_timedelta in
  if negb (Qle_bool sleep_seconds 0) then emit (TimeSleep sleep_seconds)
  else ret tt.

End PeriodicOperation.

(** ** periodic_operation.py, the [HEAD] side

    The same class before the release branch changed it: the period is kept
    as it was given, the time of the last run is remembered ([None] before
    the first one) and there is no [sleep_until_next_operation]. *)

Module PeriodicOperationHEAD.

Import PeriodicOperation.

Record t : Type := mk {
  _name : string;
  _period : PeriodArg;
  _last_run : option datetime;
  _last_warning : option string;
  _last_warning_time : option datetime
}.

Definition set_last_run (v : datetime) (self : t) : t :=
  mk (_name self) (_period self) (Some v) (_last_warning self) (_last_warning_time self).

Definition set_last_warning (w : string) (at_ : datetime) (self : t) : t :=
  mk (_name self) (_period self) (_last_run self) (Some w) (Some at_).

Definition __init__ (name : string) (period : PeriodArg) : t :=
  mk name period None None None.

(** [self._last_run + self._period]: a [datetime] plus a [timedelta] is a
    [datetime], or an [OverflowError] out of range; a [datetime] plus a
    number is a [TypeError]. *)
Definition datetime_add (d : datetime) (p : PeriodArg) : Outcome datetime :=
  match p with
  | Timedelta td => datetime_plus d td
  | Number _ =>
      Raises (TypeError "unsupported operand type(s) for +: 'datetime.datetime' and 'int'")
  end.

Definition report_failure (env : RunEnv) (e : Exception) : M t unit :=
  self <- get ;;
  let warning := warning_text (_name self) e in
  if should_warn env (_last_warning self) (_last_warning_time self) warning then
    emit (LoggerWarn warning) ;;
    modify (set_last_warning warning (at_warning_update env))
  else ret tt.

Definition run (env : RunEnv) : M t unit :=
  try_except
    (self <- get ;;
     due <- match _last_run self with
            | None => ret true
            | Some last =>
                due_time <- perform (datetime_add last (_period self)) ;;
                ret (due_time <=? at_check env)
            end ;;
     if (due : bool) then
       try_finally
         (emit (OperationCalled (_name self)) ;; perform (operation env))
         (modify (set_last_run (at_finally env)))
     else ret tt)
    (report_failure env).

End PeriodicOperationHEAD.

(** ** Driving a task through a sequence of calls *)

(** The traces of successive calls of [run], one environment per call; each
    call starts from the state the previous one left. *)
Fixpoint call_traces {S} (run : PeriodicOperation.RunEnv -> M S unit)
    (envs : list PeriodicOperation.RunEnv) (self : S) : list Trace :=
  match envs with
  | [] => []
  | env :: rest =>
      let r := run env self in
      trace_of r :: call_traces run rest (state_of r)
  end.

(** Whether a call of [run] called the operation. *)
Definition called_operation (t : Trace) : bool :=
  (0 <? count is_operation_call t)%nat.

(** The decisions of a task over successive calls of [run]: [true] where
    the operation was called. *)
Definition decisions {S} (run : PeriodicOperation.RunEnv -> M S unit)
    (envs : list PeriodicOperation.RunEnv) (self : S) : list bool :=
  map called_operation (call_traces run envs self).

(** The trace of successive calls of [run]. *)
Fixpoint run_all {S} (run : PeriodicOperation.RunEnv -> M S unit)
    (envs : list PeriodicOperation.RunEnv) : M S unit :=
  match envs with
  | [] => ret tt
  | env :: rest => run env ;; run_all run rest
  end.

(** ** log_upload.py *)

Module LogUploadHandler.

(** [LOG_UPLOAD_PERIOD = datetime.timedelta(hours=1)] *)
Definition LOG_UPLOAD_PERIOD : timedelta := timedelta_of_hours 1.

(** The attributes of the handler.  [protocol] and [protocol_util] are
    [None] until [init_protocols] has run; the thread itself is not
    modelled. *)
Record t : Type := mk {
  last_log_upload_time : option datetime;
  protocol : option unit;
  protocol_util : option unit;
  should_run : bool
}.

Definition __init__ : t := mk None None None true.

Definition set_last_log_upload_time (v : datetime) (self : t) : t :=
  mk (Some v) (protocol self) (protocol_util self) (should_run self).
Definition set_protocol_util (self : t) : t :=
  mk (last_log_upload_time self) (protocol self) (Some tt) (should_run self).
Definition set_protocol (self : t) : t :=
  mk (last_log_upload_time self) (Some tt) (protocol_util self) (should_run self).
Definition set_should_run (b : bool) (self : t) : t :=
  mk (last_log_upload_time self) (protocol self) (protocol_util self) b.

(** The inputs of one iteration of the loop of [daemon]: the clock at each
    [utcnow()] site and what each collaborator does. *)
Record CycleEnv : Type := mkCycleEnv {
  at_first : datetime;                  (* when last_log_upload_time is None *)
  at_check : datetime;                  (* in the due test *)
  update_host_plugin_from_goal_state : Outcome unit;
  at_start : datetime;                  (* start_time *)
  new_log_collector : Outcome unit;     (* LogCollector("bla") *)
  collect_logs : Outcome string;        (* the archive path *)
  elapsed_after_collect : Z;            (* elapsed_milliseconds(start_time), in the try *)
  getsize : string -> Outcome Z;        (* os.path.getsize *)
  elapsed_at_failure : Z;               (* elapsed_milliseconds(start_time), in the handler *)
  put_vm_logs : Outcome unit;
  at_done : datetime;                   (* stored in last_log_upload_time *)
  stop_called : bool                    (* stop() clears should_run during the iteration *)
}.

Definition newline : string := String "010"%char "".

(** A method call on [self.protocol]; on [None] it is an [AttributeError]. *)
Definition on_protocol (method : string) (ev : Event) (o : Outcome unit) : M t unit :=
  self <- get ;;
  match protocol self with
  | None =>
      raise (AttributeError ("'NoneType' object has no attribute '" ++ method ++ "'")%string)
  | Some _ => emit ev ;; perform o
  end.

(** The two messages.  In the first both placeholders of the format string
    are [{0}]: the archive size is printed in the place of the duration
    too. *)
Definition success_message (archive_size duration : Z) : string :=
  ("Successfully collected logs. Archive size: " ++ str_of_int archive_size
   ++ "b, elapsed time: " ++ str_of_int archive_size ++ " ms")%string.

Definition failure_message (duration : Z) (e : Exception) : string :=
  ("Failed to collect logs. Elapsed time: " ++ str_of_int duration
   ++ " ms. Error: " ++ ustr e)%string.

(** The [try] block of [collect_and_upload_logs]. *)
Definition collect (env : CycleEnv) : M t unit :=
  perform (new_log_collector env) ;;
  emit CollectLogsCalled ;;
  archive_path <- perform (collect_logs env) ;;
  let duration := elapsed_after_collect env in
  archive_size <- perform (getsize env archive_path) ;;
  let msg := success_message archive_size duration in
  emit (LoggerInfo msg) ;;
  emit (AddEvent true msg).

(** [collect_and_upload_logs(self)].  The handler ends in [return]: the
    flag tells whether the statement after the [try] is reached. *)
Definition collect_and_upload_logs (env : CycleEnv) : M t unit :=
  proceed <- try_except
    (collect env ;; ret true)
    (fun e =>
       let duration := elapsed_at_failure env in
       let msg := failure_message duration e in
       emit (LoggerWarn msg) ;;
       emit (AddEvent false msg) ;;
       ret false) ;;
  if (proceed : bool) then on_protocol "put_vm_logs" PutVmLogsCalled (put_vm_logs env)
  else ret tt.

(** [self.last_log_upload_time + LOG_UPLOAD_PERIOD] *)
Definition next_upload_time (self : t) : Outcome datetime :=
  match last_log_upload_time self with
  | Some last => Returns (last + LOG_UPLOAD_PERIOD)
  | None =>
      Raises (TypeError "unsupported operand type(s) for +: 'NoneType' and 'datetime.timedelta'")
  end.

(** The [try] block of the loop of [daemon]. *)
Definition cycle (env : CycleEnv) : M t unit :=
  self <- get ;;
  match last_log_upload_time self with
  | None => modify (set_last_log_upload_time (at_first env - LOG_UPLOAD_PERIOD))
  | Some _ => ret tt
  end ;;
  self <- get ;;
  due_time <- perform (next_upload_time self) ;;
  if due_time <=? at_check env then
    on_protocol "update_host_plugin_from_goal_state" UpdateHostPluginCalled
      (update_host_plugin_from_goal_state env) ;;
    collect_and_upload_logs env ;;
    modify (set_last_log_upload_time (at_done env))
  else ret tt.

Definition main_loop_warning (e : Exception) : string :=
  ("An error occurred in the log upload thread main loop; will skip the current iteration."
   ++ newline ++ ustr e)%string.

(** One iteration of [while self.should_run]. *)
Definition iteration (env : CycleEnv) : M t unit :=
  try_except (cycle env) (fun e => emit (LoggerWarn (main_loop_warning e))) ;;
  emit (TimeSleep (inject_Z (seconds LOG_UPLOAD_PERIOD))).

(** How a run of the loop over finitely many inputs ends. *)
Inductive LoopEnd : Type :=
| Exited          (* should_run was found false *)
| StillLooping.   (* the inputs ran out with should_run true *)

(** [while self.should_run: ...], one environment per iteration.  Another
    thread may call [stop] while an iteration runs; the flag is read again
    at the head of the loop. *)
Fixpoint loop (cycles : list CycleEnv) : M t LoopEnd :=
  self <- get ;;
  if should_run self then
    match cycles with
    | [] => ret StillLooping
    | env :: rest =>
        iteration env ;;
        (if stop_called env then modify (set_should_run false) else ret tt) ;;
        loop rest
    end
  else ret Exited.

(** [init_protocols(self)] *)
Definition init_protocols (get_protocol_util get_protocol : Outcome unit) : M t unit :=
  perform get_protocol_util ;;
  modify set_protocol_util ;;
  perform get_protocol ;;
  modify set_protocol.

(** [daemon(self, init_data=False)] *)
Definition daemon (init_data : bool) (get_protocol_util get_protocol : Outcome unit)
    (cycles : list CycleEnv) : M t LoopEnd :=
  (if init_data then init_protocols get_protocol_util get_protocol else ret tt) ;;
  loop cycles.

(** Whether the due test of an iteration passes. *)
Definition cycle_due (env : CycleEnv) (self : t) : bool :=
  match last_log_upload_time self with
  | None => at_first env - LOG_UPLOAD_PERIOD + LOG_UPLOAD_PERIOD <=? at_check env
  | Some last => last + LOG_UPLOAD_PERIOD <=? at_check env
  end.

End LogUploadHandler.

(** ** Auxiliary definitions for the statements *)

(** The state a due call of [run] leaves once the [finally] clause is done:
    [_next_run_time] is assigned unless the sum has raised. *)
Definition after_run (env : PeriodicOperation.RunEnv) (self : PeriodicOperation.t)
    : PeriodicOperation.t :=
  match datetime_plus (PeriodicOperation.at_finally env) (PeriodicOperation._period self) with
  | Returns next => PeriodicOperation.set_next_run_time next self
  | Raises _ => self
  end.

(** The exception that reaches the handler of a due call of [run], if any:
    the one of the [finally] clause when the sum raises, else the one of
    the operation. *)
Definition caught (env : PeriodicOperation.RunEnv) (self : PeriodicOperation.t)
    : option Exception :=
  match datetime_plus (PeriodicOperation.at_finally env) (PeriodicOperation._period self) with
  | Raises overflow => Some overflow
  | Returns _ =>
      match PeriodicOperation.operation env with
      | Raises e => Some e
      | Returns _ => None
      end
  end.

(** Whether the sum of the [finally] clause is a [datetime] at every call. *)
Definition sums_in_range (td : timedelta) (envs : list PeriodicOperation.RunEnv) : bool :=
  forallb (fun env => datetime_in_range (PeriodicOperation.at_finally env + td)) envs.

(** The earliest [next_run_time] of a non-empty list of tasks, as [min]
    computes it. *)
Definition earliest (op : PeriodicOperation.t) (others : list PeriodicOperation.t)
    : datetime :=
  fold_left Z.min (map PeriodicOperation.next_run_time others)
    (PeriodicOperation.next_run_time op).

(** The states of the two variants of a task that have run at least once
    and stand at the same point: same name, same period [td], same memory
    of warnings, and [_next_run_time] of the one is [_last_run] of the
    other plus the period, a sum that is a [datetime]. *)
Definition agree (td : timedelta) (h : PeriodicOperationHEAD.t) (r : PeriodicOperation.t)
    : Prop :=
  PeriodicOperationHEAD._name h = PeriodicOperation._name r /\
  PeriodicOperationHEAD._period h = PeriodicOperation.Timedelta td /\
  PeriodicOperation._period r = td /\
  PeriodicOperationHEAD._last_warning h = PeriodicOperation._last_warning r /\
  PeriodicOperationHEAD._last_warning_time h = PeriodicOperation._last_warning_time r /\
  exists last, PeriodicOperationHEAD._last_run h = Some last /\
               PeriodicOperation._next_run_time r = last + td /\
               datetime_in_range (last + td) = true.

(** The due test of the [HEAD] variant: [true] for a task that has never
    run, else the comparison of the clock with [_last_run] plus the period,
    unless that sum raises. *)
Definition head_decision (env : PeriodicOperation.RunEnv) (h : PeriodicOperationHEAD.t)
    : Outcome bool :=
  match PeriodicOperationHEAD._last_run h with
  | None => Returns true
  | Some last =>
      match PeriodicOperationHEAD.datetime_add last (PeriodicOperationHEAD._period h) with
      | Returns due_time => Returns (due_time <=? PeriodicOperation.at_check env)
      | Raises e => Raises e
      end
  end.

(** What the handler of the [HEAD] variant makes of an exception [e], from
    the state [h] and after the events [before]. *)
Definition head_report (env : PeriodicOperation.RunEnv) (e : Exception)
    (h : PeriodicOperationHEAD.t) (before : Trace)
    : Outcome unit * PeriodicOperationHEAD.t * Trace :=
  let warning := PeriodicOperation.warning_text (PeriodicOperationHEAD._name h) e in
  if PeriodicOperation.should_warn env (PeriodicOperationHEAD._last_warning h)
       (PeriodicOperationHEAD._last_warning_time h) warning
  then (Returns tt,
        PeriodicOperationHEAD.set_last_warning warning
          (PeriodicOperation.at_warning_update env) h,
        before ++ [LoggerWarn warning])
  else (Returns tt, h, before).

(** ** The scheduler's wait, in the words of the specification *)

(** [time_until_due(now)] of the specification: how long until the task
    should next run, clamped at zero. *)
Definition spec_time_until_due (now : datetime) (self : PeriodicOperation.t) : timedelta :=
  Z.max 0 (PeriodicOperation.next_run_time self - now).

(** The readings of the clock offered to a sequence of calls of [run], in
    the order of the call sites. *)
Definition clock_readings (envs : list PeriodicOperation.RunEnv) : list datetime :=
  flat_map (fun env => [PeriodicOperation.at_check env;
                        PeriodicOperation.at_finally env;
                        PeriodicOperation.at_warning_check env;
                        PeriodicOperation.at_warning_update env]) envs.

(** A sequence of readings that never goes back. *)
Fixpoint nondecreasing (readings : list datetime) : bool :=
  match readings with
  | [] => true
  | x :: rest =>
      match rest with
      | [] => true
      | y :: _ => (x <=? y) && nondecreasing rest
      end
  end.

(** ** Further auxiliary definitions *)

(** The two attributes that remember the last warning are set together. *)
Definition warning_memory_consistent (self : PeriodicOperation.t) : Prop :=
  PeriodicOperation._last_warning self = None <->
  PeriodicOperation._last_warning_time self = None.

(** The events of an iteration of the log-upload loop that reach no
    collaborator: a warning in the log, or the sleep. *)
Definition is_quiet (ev : Event) : bool := is_warning ev || is_sleep ev.

Definition is_refresh (ev : Event) : bool :=
  match ev with UpdateHostPluginCalled => true | _ => false end.

Definition is_collect (ev : Event) : bool :=
  match ev with CollectLogsCalled => true | _ => false end.

Definition is_telemetry (ev : Event) : bool :=
  match ev with AddEvent _ _ => true | _ => false end.

(** * Properties *)

(** ** Durations and the runtime *)

Lemma timedelta_attributes (td : timedelta) :
  (days td * 24 * 3600 + seconds td) * 1000000 + microseconds td = td.
Proof.
  unfold days, seconds, microseconds.
  pose proof (Z.div_mod td 86400000000 ltac:(lia)) as Hd.
  pose proof (Z.div_mod (td mod 86400000000) 1000000 ltac:(lia)) as Hs.
  assert (Hm : (td mod 86400000000) mod 1000000 = td mod 1000000).
  { apply Z.mod_mod_divide. exists 86400. reflexivity. }
  lia.
Qed.

(** What [min] returns on a non-empty list, [fold_left Z.min l a]: a lower
    bound of the list, and one of its elements. *)
Section MinOfList.

Lemma fold_min_le (l : list Z) : forall a, fold_left Z.min l a <= a.
Proof.
  induction l as [|x l IH]; intros a; simpl; [lia|].
  specialize (IH (Z.min a x)). lia.
Qed.

Lemma fold_min_lower_bound (l : list Z) :
  forall a x, In x l -> fold_left Z.min l a <= x.
Proof.
  induction l as [|y l IH]; intros a x Hin; simpl in *; [contradiction|].
  destruct Hin as [->|Hin].
  - pose proof (fold_min_le l (Z.min a x)). lia.
  - now apply IH.
Qed.

Lemma fold_min_attained (l : list Z) :
  forall a, fold_left Z.min l a = a \/ In (fold_left Z.min l a) l.
Proof.
  induction l as [|y l IH]; intros a; simpl; [now left|].
  destruct (IH (Z.min a y)) as [E|Hin]; [|now right; right].
  rewrite E. destruct (Z.min_spec a y) as [[_ ->]|[_ ->]]; [now left|now right; left].
Qed.

(** A monotone function commutes with the minimum of a list. *)
Variable f : Z -> Z.
Hypothesis f_min : forall a b, f (Z.min a b) = Z.min (f a) (f b).

Lemma fold_min_map (l : list Z) :
  forall a, fold_left Z.min (map f l) (f a) = f (fold_left Z.min l a).
Proof.
  induction l as [|x l IH]; intros a; simpl; [reflexivity|].
  now rewrite <- f_min, IH.
Qed.

End MinOfList.

(** ** [PeriodicOperation.run] (release-2.2.53) *)

Module PeriodicOperationFacts.

Import PeriodicOperation.

(** The two outcomes of the sum in the [finally] clause. *)
Lemma sum_in_range (env : RunEnv) (self : t) :
  datetime_in_range (at_finally env + _period self) = true ->
  after_run env self = set_next_run_time (at_finally env + _period self) self /\
  caught env self = match operation env with
                    | Raises e => Some e
                    | Returns _ => None
                    end.
Proof.
  intros Hrange. unfold after_run, caught, datetime_plus. now rewrite Hrange.
Qed.

Lemma sum_out_of_range (env : RunEnv) (self : t) :
  datetime_in_range (at_finally env + _period self) = false ->
  after_run env self = self /\
  caught env self = Some (OverflowError "date value out of range").
Proof.
  intros Hrange. unfold after_run, caught, datetime_plus. now rewrite Hrange.
Qed.

(** The [finally] clause touches [_next_run_time] only. *)
Lemma after_run_keeps (env : RunEnv) (self : t) :
  _name (after_run env self) = _name self /\
  _period (after_run env self) = _period self /\
  _last_warning (after_run env self) = _last_warning self /\
  _last_warning_time (after_run env self) = _last_warning_time self.
Proof.
  unfold after_run. now destruct (datetime_plus (at_finally env) (_period self)).
Qed.

(** The two equations of [run]. *)
Lemma run_not_due (env : RunEnv) (self : t) :
  (_next_run_time self <=? at_check env) = false ->
  run env self = (Returns tt, self, []).
Proof.
  intros Hdue. unfold run, try_except, bind, get, ret. simpl. now rewrite Hdue.
Qed.

Lemma run_due (env : RunEnv) (self : t) :
  (_next_run_time self <=? at_check env) = true ->
  run env self =
    match caught env self with
    | None => (Returns tt, after_run env self, [OperationCalled (_name self)])
    | Some e =>
        let warning := warning_text (_name self) e in
        if should_warn env (_last_warning self) (_last_warning_time self) warning
        then (Returns tt,
              set_last_warning warning (at_warning_update env) (after_run env self),
              [OperationCalled (_name self); LoggerWarn warning])
        else (Returns tt, after_run env self, [OperationCalled (_name self)])
    end.
Proof.
  intros Hdue.
  unfold run, try_except, try_finally, report_failure, bind, get, modify, emit, perform, ret,
    caught, after_run.
  simpl. rewrite Hdue.
  destruct (datetime_plus (at_finally env) (_period self)) as [next|overflow];
    destruct (operation env) as [[]|e]; simpl; try reflexivity;
    now destruct (should_warn env (_last_warning self) (_last_warning_time self) _).
Qed.

Lemma should_warn_iff (env : RunEnv) (last_warning : option string)
    (last_warning_time : option datetime) (warning : string) :
  should_warn env last_warning last_warning_time warning = true <->
  (last_warning <> Some warning \/
   last_warning_time = None \/
   exists last, last_warning_time = Some last /\
                last + timedelta_of_minutes 60 <= at_warning_check env).
Proof.
  unfold should_warn, option_eqb.
  destruct last_warning as [w|].
  - destruct (String.eqb_spec warning w) as [->|Hne]; simpl.
    + destruct last_warning_time as [last|].
      * rewrite Z.leb_le. split.
        -- intros H. right; right. now exists last.
        -- intros [H|[H|[l [[= <-] H]]]]; [congruence|discriminate|exact H].
      * split; [intros _; now right; left|reflexivity].
    + split; [intros _; left; congruence|reflexivity].
  - split; [intros _; left; discriminate|reflexivity].
Qed.

(** What a due call leaves and does, whatever reaches the handler. *)
Lemma run_due_facts (env : RunEnv) (self : t) :
  (_next_run_time self <=? at_check env) = true ->
  outcome_of (run env self) = Returns tt /\
  count is_operation_call (trace_of (run env self)) = 1%nat /\
  _next_run_time (state_of (run env self)) = _next_run_time (after_run env self) /\
  _name (state_of (run env self)) = _name self /\
  _period (state_of (run env self)) = _period self.
Proof.
  intros Hdue. rewrite (run_due env self Hdue).
  destruct (after_run_keeps env self) as (Hname & Hperiod & _ & _).
  destruct (caught env self) as [e|]; cbv zeta;
    [destruct (should_warn env (_last_warning self) (_last_warning_time self)
                 (warning_text (_name self) e))|];
    unfold outcome_of, state_of, trace_of; simpl; repeat split; assumption.
Qed.

(** C1, as the code has it.  When the task is due, [run] calls the
    operation once and returns, whether the operation returns or raises.
    When the clock as read in the [finally] clause plus the period is a
    [datetime], [_next_run_time] is left at that sum (the time of the due
    test plus the period when the clock reads the same at both places).
    When the sum is outside the years 1..9999 it raises [OverflowError] in
    the [finally] clause, which [run] catches, and [_next_run_time] stays
    where it was. *)
Theorem run_due_sets_next_run_time :
  forall (env : RunEnv) (self : t),
    _next_run_time self <= at_check env ->
    outcome_of (run env self) = Returns tt /\
    count is_operation_call (trace_of (run env self)) = 1%nat /\
    _period (state_of (run env self)) = _period self /\
    (datetime_in_range (at_finally env + _period self) = true ->
     _next_run_time (state_of (run env self)) = at_finally env + _period self /\
     (at_finally env = at_check env ->
      _next_run_time (state_of (run env self)) = at_check env + _period self)) /\
    (datetime_in_range (at_finally env + _period self) = false ->
     _next_run_time (state_of (run env self)) = _next_run_time self).
Proof.
  intros env self Hdue. apply Z.leb_le in Hdue.
  destruct (run_due_facts env self Hdue) as (Hout & Hcalls & Hnext & _ & Hperiod).
  split; [exact Hout|]. split; [exact Hcalls|]. split; [exact Hperiod|]. split.
  - intros Hrange. destruct (sum_in_range env self Hrange) as [Hafter _].
    rewrite Hnext, Hafter. split; [reflexivity|]. intros <-. reflexivity.
  - intros Hrange. destruct (sum_out_of_range env self Hrange) as [Hafter _].
    now rewrite Hnext, Hafter.
Qed.

(** C1 on a task due at 100 whose operation raises and takes 5 microseconds. *)
Lemma run_due_sets_next_run_time_witness :
  let env := mkRunEnv 100 (Raises (mkException "Exception" "network unreachable")) 105 106 107 in
  let self := __init__ 100 "refresh" (Number 30) in
  _next_run_time (state_of (run env self)) = 105 + 30000000.
Proof.
  intros env self.
  refine (proj1 (proj1 (proj2 (proj2 (proj2 (run_due_sets_next_run_time env self _)))) _)).
  - simpl. discriminate.
  - reflexivity.
Defined.

(** C1 fails as stated: a due task whose period is 999999999 days (the
    largest a [timedelta] can hold) and whose operation returns keeps its
    [_next_run_time]; the sum is no [datetime]. *)
Lemma run_due_overflow_counterexample :
  let env := mkRunEnv 100 (Returns tt) 105 106 107 in
  let self := __init__ 100 "refresh" (Timedelta (999999999 * 86400000000)) in
  _next_run_time self <= at_check env /\
  count is_operation_call (trace_of (run env self)) = 1%nat /\
  _next_run_time (state_of (run env self)) = 100 /\
  _next_run_time (state_of (run env self)) <> at_finally env + _period self /\
  _next_run_time (state_of (run env self)) <> at_check env + _period self.
Proof.
  intros env self. repeat split; discriminate.
Qed.

(** Two successive calls: the second starts from the state the first left. *)
Lemma run_returns (env : RunEnv) (self : t) :
  outcome_of (run env self) = Returns tt.
Proof.
  destruct (_next_run_time self <=? at_check env) eqn:Hdue.
  - apply (run_due_facts env self Hdue).
  - now rewrite (run_not_due env self Hdue).
Qed.

Lemma run_twice (env1 env2 : RunEnv) (self : t) :
  trace_of (run_all run [env1; env2] self) =
    trace_of (run env1 self) ++ trace_of (run env2 (state_of (run env1 self))).
Proof.
  pose proof (run_returns env1 self) as H1.
  pose proof (run_returns env2 (state_of (run env1 self))) as H2.
  unfold run_all, bind, ret, outcome_of, state_of, trace_of in *.
  destruct (run env1 self) as [[o1 s1] t1]; simpl in *; subst o1.
  destruct (run env2 s1) as [[o2 s2] t2]; simpl in *; subst o2.
  simpl. now rewrite app_nil_r.
Qed.

Lemma count_two_calls (env1 env2 : RunEnv) (self : t) :
  count is_operation_call (trace_of (run_all run [env1; env2] self))
  = (count is_operation_call (trace_of (run env1 self))
     + count is_operation_call (trace_of (run env2 (state_of (run env1 self)))))%nat.
Proof. rewrite run_twice. unfold count. now rewrite filter_app, length_app. Qed.

Lemma count_one_call (env : RunEnv) (self : t) :
  (count is_operation_call (trace_of (run env self)) <= 1)%nat.
Proof.
  destruct (_next_run_time self <=? at_check env) eqn:Hdue.
  - destruct (run_due_facts env self Hdue) as (_ & -> & _). constructor.
  - rewrite (run_not_due env self Hdue). simpl. auto.
Qed.

(** C7, as the code has it.  When the clock reads less than
    [_next_run_time], [run] does not call the operation and changes
    nothing.  Hence, when the sum of the [finally] clause of a first call
    is a [datetime], a second call whose due test comes less than a period
    after that clause does not call the operation again: at most one of
    the two does; so it is for a positive period when the second call
    follows at once. *)
Theorem run_not_due_is_noop :
  forall (env1 env2 : RunEnv) (self : t),
    (at_check env1 < _next_run_time self ->
     run env1 self = (Returns tt, self, [])) /\
    (datetime_in_range (at_finally env1 + _period self) = true ->
     at_check env2 < at_finally env1 + _period self ->
     (count is_operation_call (trace_of (run_all run [env1; env2] self)) <= 1)%nat) /\
    (datetime_in_range (at_finally env1 + _period self) = true ->
     0 < _period self -> at_check env2 = at_finally env1 ->
     (count is_operation_call (trace_of (run_all run [env1; env2] self)) <= 1)%nat).
Proof.
  intros env1 env2 self.
  assert (Htwice : datetime_in_range (at_finally env1 + _period self) = true ->
     at_check env2 < at_finally env1 + _period self ->
     (count is_operation_call (trace_of (run_all run [env1; env2] self)) <= 1)%nat).
  { intros Hrange Hsoon. rewrite count_two_calls.
    destruct (_next_run_time self <=? at_check env1) eqn:Hdue1.
    - destruct (run_due_facts env1 self Hdue1) as (_ & Hcalls & Hnext & _ & _).
      destruct (sum_in_range env1 self Hrange) as [Hafter _].
      rewrite Hafter in Hnext. simpl in Hnext.
      rewrite Hcalls, (run_not_due env2) by (rewrite Hnext; now apply Z.leb_gt).
      simpl. auto.
    - rewrite (run_not_due env1 self Hdue1). simpl. apply count_one_call. }
  split; [|split].
  - intros Hearly. apply run_not_due. apply Z.leb_gt. exact Hearly.
  - exact Htwice.
  - intros Hrange Hpos Hnow. apply Htwice; [exact Hrange|lia].
Qed.

(** C7 on a task that is due at 100 and is run at 100 and again at 105,
    with a period of 30 seconds. *)
Lemma run_not_due_is_noop_witness :
  let env1 := mkRunEnv 100 (Returns tt) 105 106 107 in
  let env2 := mkRunEnv 105 (Returns tt) 110 111 112 in
  let self := __init__ 100 "refresh" (Number 30) in
  run env2 (state_of (run env1 self)) = (Returns tt, state_of (run env1 self), []) /\
  (count is_operation_call (trace_of (run_all run [env1; env2] self)) <= 1)%nat.
Proof.
  intros env1 env2 self. split.
  - refine (proj1 (run_not_due_is_noop env2 env2 (state_of (run env1 self))) _).
    reflexivity.
  - refine (proj1 (proj2 (run_not_due_is_noop env1 env2 self)) _ _); reflexivity.
Defined.

(** C7 fails as stated: with a positive period of 999999999 days, two calls
    in immediate succession both call the operation. *)
Lemma run_twice_overflow_counterexample :
  let env1 := mkRunEnv 100 (Returns tt) 105 106 107 in
  let env2 := mkRunEnv 105 (Returns tt) 110 111 112 in
  let self := __init__ 100 "refresh" (Timedelta (999999999 * 86400000000)) in
  0 < _period self /\
  at_check env2 = at_finally env1 /\
  at_check env2 < at_finally env1 + _period self /\
  count is_operation_call (trace_of (run_all run [env1; env2] self)) = 2%nat.
Proof.
  intros env1 env2 self. repeat split.
Qed.

(** C2.  When a due call of [run] fails, the operation raising (or the sum
    of the [finally] clause, whose exception then takes the place of the
    operation's), [run] logs a warning if and only if the text made from
    the exception that reached the handler differs from the last one
    logged, or none was logged yet, or the clock reads at least 60 minutes
    past the time recorded with the last one.  Of two failures with the
    same text, the first of them logged, the second is logged exactly when
    the clock has reached the recorded time plus 60 minutes: one warning
    in all before that, two from then on. *)
Theorem warning_iff_new_or_cooled_down :
  forall (env1 env2 : RunEnv) (self : t) (e : Exception),
    _next_run_time self <= at_check env1 ->
    caught env1 self = Some e ->
    let warning := warning_text (_name self) e in
    let logged := filter is_warning (trace_of (run env1 self)) in
    (logged = [LoggerWarn warning] <->
       (_last_warning self <> Some warning \/
        _last_warning_time self = None \/
        exists last, _last_warning_time self = Some last /\
                     last + timedelta_of_minutes 60 <= at_warning_check env1)) /\
    (logged = [] <->
       ~ (_last_warning self <> Some warning \/
          _last_warning_time self = None \/
          exists last, _last_warning_time self = Some last /\
                       last + timedelta_of_minutes 60 <= at_warning_check env1)) /\
    (logged = [LoggerWarn warning] ->
     _next_run_time (state_of (run env1 self)) <= at_check env2 ->
     caught env2 (state_of (run env1 self)) = Some e ->
     filter is_warning (trace_of (run_all run [env1; env2] self)) =
       if at_warning_update env1 + timedelta_of_minutes 60 <=? at_warning_check env2
       then [LoggerWarn warning; LoggerWarn warning]
       else [LoggerWarn warning]).
Proof.
  intros env1 env2 self e Hdue1 Hcaught1 warning logged.
  apply Z.leb_le in Hdue1.
  pose proof (should_warn_iff env1 (_last_warning self) (_last_warning_time self) warning)
    as Hiff.
  assert (Hrun1 := run_due env1 self Hdue1). rewrite Hcaught1 in Hrun1. cbv zeta in Hrun1.
  fold warning in Hrun1.
  destruct (should_warn env1 (_last_warning self) (_last_warning_time self) warning)
    eqn:Hwarn.
  - assert (Hlogged : logged = [LoggerWarn warning])
      by (unfold logged; rewrite Hrun1; reflexivity).
    split; [|split].
    + split; [intros _; now apply Hiff|intros _; exact Hlogged].
    + rewrite Hlogged. split; [discriminate|].
      intros Hno. exfalso. apply Hno. now apply Hiff.
    + intros _ Hdue2 Hcaught2. rewrite run_twice, filter_app. fold logged. rewrite Hlogged.
      rewrite Hrun1 in Hdue2, Hcaught2 |- *.
      unfold state_of in Hdue2, Hcaught2 |- *. simpl fst in *. simpl snd in *.
      apply Z.leb_le in Hdue2. rewrite (run_due _ _ Hdue2), Hcaught2. cbv zeta.
      destruct (after_run_keeps env1 self) as (Hname & _ & _ & _).
      change (_name (set_last_warning warning (at_warning_update env1) (after_run env1 self)))
        with (_name (after_run env1 self)).
      rewrite Hname. fold warning. unfold should_warn at 1. simpl.
      rewrite String.eqb_refl. simpl.
      change (timedelta_of_minutes 60) with _LOG_WARNING_PERIOD.
      now destruct (at_warning_update env1 + _LOG_WARNING_PERIOD <=? at_warning_check env2).
  - assert (Hlogged : logged = [])
      by (unfold logged; rewrite Hrun1; reflexivity).
    split; [|split].
    + rewrite Hlogged. split; [discriminate|].
      intros Hc. apply Hiff in Hc. discriminate.
    + split; [|intros _; exact Hlogged].
      intros _ Hc. apply Hiff in Hc. discriminate.
    + rewrite Hlogged. discriminate.
Qed.

(** C2 on a task that fails at 100 and again, with the same error, 30
    seconds later. *)
Lemma warning_iff_new_or_cooled_down_witness :
  let failure := Raises (mkException "Exception" "network unreachable") in
  let env1 := mkRunEnv 100 failure 105 106 107 in
  let env2 := mkRunEnv 30000105 failure 30000106 30000107 30000108 in
  let self := __init__ 100 "refresh" (Number 30) in
  filter is_warning (trace_of (run_all run [env1; env2] self)) =
    [LoggerWarn "Failed to refresh: network unreachable --- [NOTE: Will not log the same error for the next hour]"].
Proof.
  intros failure env1 env2 self.
  refine (proj2 (proj2 (warning_iff_new_or_cooled_down env1 env2 self
                          (mkException "Exception" "network unreachable") _ _)) _ _ _).
  - simpl. discriminate.
  - reflexivity.
  - reflexivity.
  - simpl. discriminate.
  - reflexivity.
Defined.

End PeriodicOperationFacts.

(** ** [PeriodicOperation.sleep_until_next_operation] *)

Module SchedulerFacts.

Import PeriodicOperation.

Lemma sleep_seconds_of_eq (td : timedelta) :
  (sleep_seconds_of td == inject_Z td / inject_Z 1000000)%Q.
Proof.
  unfold sleep_seconds_of.
  pose proof (timedelta_attributes td) as E.
  set (a := days td * 24 * 3600 + seconds td) in *.
  set (b := microseconds td) in *.
  unfold Qeq; cbn. lia.
Qed.

Lemma sleep_seconds_of_positive (td : timedelta) :
  negb (Qle_bool (sleep_seconds_of td) 0) = (0 <? td).
Proof.
  assert (H : Qle_bool (sleep_seconds_of td) 0 = (td <=? 0)).
  { apply eq_true_iff_eq. rewrite Qle_bool_iff, Z.leb_le, sleep_seconds_of_eq.
    unfold Qle, Qdiv, Qmult, Qinv, inject_Z; simpl. lia. }
  rewrite H. destruct (Z.leb_spec td 0), (Z.ltb_spec 0 td); simpl; lia || reflexivity.
Qed.

(** The equation of [sleep_until_next_operation] on a non-empty list. *)
Lemma sleep_until_next_operation_cons (utcnow : datetime) (op : t) (others : list t) :
  sleep_until_next_operation utcnow (op :: others) tt =
    (Returns tt, tt,
     if 0 <? earliest op others - utcnow
     then [TimeSleep (sleep_seconds_of (earliest op others - utcnow))]
     else []).
Proof.
  unfold sleep_until_next_operation, bind, perform, emit, ret. simpl.
  fold (earliest op others). rewrite sleep_seconds_of_positive.
  now destruct (0 <? earliest op others - utcnow).
Qed.

(** The specification's minimum of the clamped waits is the clamped wait
    for the earliest task. *)
Lemma min_time_until_due (utcnow : datetime) (op : t) (others : list t) :
  fold_left Z.min (map (spec_time_until_due utcnow) others) (spec_time_until_due utcnow op)
  = Z.max 0 (earliest op others - utcnow).
Proof.
  unfold spec_time_until_due, earliest.
  rewrite <- (fold_min_map (fun x => Z.max 0 (x - utcnow))) by (intros; lia).
  now rewrite map_map.
Qed.

(** C3.  On a non-empty list of tasks, [sleep_until_next_operation] waits
    for the minimum over the tasks of the time until each is due: a value
    below every task's and attained by one of them.  It sleeps once, for
    that many microseconds expressed in seconds, when the minimum is
    positive, and returns without sleeping otherwise. *)
Theorem sleep_until_next_operation_waits_minimum :
  forall (utcnow : datetime) (operations : list t),
    operations <> [] ->
    exists wait : timedelta,
      Py.min (map (spec_time_until_due utcnow) operations) = Returns wait /\
      (forall op, In op operations -> wait <= spec_time_until_due utcnow op) /\
      (exists op, In op operations /\ wait = spec_time_until_due utcnow op) /\
      sleep_until_next_operation utcnow operations tt =
        (Returns tt, tt, if 0 <? wait then [TimeSleep (sleep_seconds_of wait)] else []) /\
      (sleep_seconds_of wait == inject_Z wait / inject_Z 1000000)%Q.
Proof.
  intros utcnow [|op others] Hne; [congruence|].
  exists (fold_left Z.min (map (spec_time_until_due utcnow) others)
            (spec_time_until_due utcnow op)).
  split; [reflexivity|]. split; [|split; [|split]].
  - intros op' [<-|Hin].
    + apply fold_min_le.
    + apply fold_min_lower_bound. now apply in_map.
  - destruct (fold_min_attained (map (spec_time_until_due utcnow) others)
                (spec_time_until_due utcnow op)) as [E|Hin].
    + exists op. split; [now left|exact E].
    + apply in_map_iff in Hin. destruct Hin as [op' [E Hin]].
      exists op'. split; [now right|now symmetry].
  - rewrite sleep_until_next_operation_cons, min_time_until_due.
    destruct (Z.ltb_spec 0 (earliest op others - utcnow)) as [Hpos|Hle].
    + replace (Z.max 0 (earliest op others - utcnow)) with (earliest op others - utcnow)
        by lia.
      apply Z.ltb_lt in Hpos. now rewrite Hpos.
    + replace (Z.max 0 (earliest op others - utcnow)) with 0 by lia. reflexivity.
  - apply sleep_seconds_of_eq.
Qed.

(** C3 on tasks due in 5, 2 and 9 seconds: the wait is 2 seconds. *)
Lemma sleep_until_next_operation_waits_minimum_witness :
  let due_in secs := mk "task" 3600000000 (1000 + timedelta_of_seconds secs) None None in
  exists wait : timedelta,
    Py.min (map (spec_time_until_due 1000) [due_in 5; due_in 2; due_in 9]) = Returns wait /\
    wait = timedelta_of_seconds 2 /\
    sleep_until_next_operation 1000 [due_in 5; due_in 2; due_in 9] tt =
      (Returns tt, tt, [TimeSleep (sleep_seconds_of wait)]) /\
    (sleep_seconds_of wait == 2)%Q.
Proof.
  intros due_in.
  destruct (sleep_until_next_operation_waits_minimum 1000 [due_in 5; due_in 2; due_in 9])
    as [wait [Hmin [_ [_ [Hsleep _]]]]].
  - discriminate.
  - exists wait. injection Hmin as Hwait. rewrite <- Hwait in Hsleep |- *.
    split; [reflexivity|]. split; [reflexivity|]. split; [exact Hsleep|reflexivity].
Defined.

(** C5, as the code has it.  On the empty list [min] raises [ValueError]:
    [sleep_until_next_operation] does not return and does not sleep. *)
Theorem sleep_until_next_operation_empty_raises :
  forall utcnow : datetime,
    sleep_until_next_operation utcnow [] tt =
      (Raises (ValueError "min() arg is an empty sequence"), tt, []).
Proof. reflexivity. Qed.

(** C5 fails as stated: with no task the call does not return. *)
Lemma sleep_until_next_operation_empty_counterexample :
  outcome_of (sleep_until_next_operation 0 [] tt) <> Returns tt /\
  outcome_of (sleep_until_next_operation 0 [] tt)
    = Raises (ValueError "min() arg is an empty sequence").
Proof. split; [discriminate|reflexivity]. Qed.

(** C9.  A task starts with [_next_run_time] at the reading of the clock
    its constructor took.  At any reading of the clock not before it, the
    time until the task is due is zero, the scheduler does not sleep for
    it, and [run] calls the operation. *)
Theorem new_task_is_due :
  forall (created : datetime) (name : string) (period : PeriodArg) (now : datetime),
    created <= now ->
    next_run_time (__init__ created name period) = created /\
    spec_time_until_due now (__init__ created name period) = 0 /\
    sleep_until_next_operation now [__init__ created name period] tt = (Returns tt, tt, []) /\
    (forall env : RunEnv, at_check env = now ->
       count is_operation_call (trace_of (run env (__init__ created name period))) = 1%nat).
Proof.
  intros created name period now Hle.
  split; [reflexivity|]. split; [|split].
  - unfold spec_time_until_due. simpl. lia.
  - rewrite sleep_until_next_operation_cons. unfold earliest. simpl.
    destruct (Z.ltb_spec 0 (created - now)); [lia|reflexivity].
  - intros env Hnow.
    apply PeriodicOperationFacts.run_due_facts. apply Z.leb_le; simpl; lia.
Qed.

(** C9 on a task made at 100 and looked at right then. *)
Lemma new_task_is_due_witness :
  spec_time_until_due 100 (__init__ 100 "refresh" (Timedelta 30000000)) = 0.
Proof.
  refine (proj1 (proj2 (new_task_is_due 100 "refresh" (Timedelta 30000000) 100 _))).
  discriminate.
Defined.

End SchedulerFacts.

(** ** The two variants of [PeriodicOperation.run] *)

Module VariantsFacts.

Import PeriodicOperation.

(** The equation of the [HEAD] variant of [run]. *)
Lemma head_run_eq (env : RunEnv) (h : PeriodicOperationHEAD.t) :
  PeriodicOperationHEAD.run env h =
    match head_decision env h with
    | Returns true =>
        match operation env with
        | Returns _ =>
            (Returns tt, PeriodicOperationHEAD.set_last_run (at_finally env) h,
             [OperationCalled (PeriodicOperationHEAD._name h)])
        | Raises e =>
            head_report env e (PeriodicOperationHEAD.set_last_run (at_finally env) h)
              [OperationCalled (PeriodicOperationHEAD._name h)]
        end
    | Returns false => (Returns tt, h, [])
    | Raises e => head_report env e h []
    end.
Proof.
  unfold PeriodicOperationHEAD.run, PeriodicOperationHEAD.report_failure, head_decision,
    head_report, try_except, try_finally, bind, get, modify, emit, perform, ret.
  simpl.
  destruct (PeriodicOperationHEAD._last_run h) as [last|]; simpl;
    [destruct (PeriodicOperationHEAD.datetime_add last (PeriodicOperationHEAD._period h))
       as [due_time|e']; simpl;
     [destruct (due_time <=? at_check env); [|reflexivity]
     |now destruct (should_warn env _ _ _)]|];
    (destruct (operation env) as [[]|e]; simpl; [reflexivity|];
     now destruct (should_warn env _ _ _)).
Qed.

(** With a number for period, the [HEAD] variant that has run once never
    calls the operation again: its due test raises [TypeError]. *)
Lemma head_run_number (env : RunEnv) (secs : Z) (last : datetime)
    (h : PeriodicOperationHEAD.t) :
  PeriodicOperationHEAD._period h = Number secs ->
  PeriodicOperationHEAD._last_run h = Some last ->
  called_operation (trace_of (PeriodicOperationHEAD.run env h)) = false.
Proof.
  intros Hperiod Hlast. rewrite head_run_eq. unfold head_decision, head_report.
  rewrite Hlast, Hperiod. simpl.
  now destruct (should_warn env _ _ _).
Qed.

(** One call from states that agree, the sum of the [finally] clause being
    a [datetime]: same trace, and the states agree again. *)
Lemma agree_step (env : RunEnv) (td : timedelta) (h : PeriodicOperationHEAD.t) (r : t) :
  datetime_in_range (at_finally env + td) = true ->
  agree td h r ->
  trace_of (PeriodicOperationHEAD.run env h) = trace_of (run env r) /\
  agree td (state_of (PeriodicOperationHEAD.run env h)) (state_of (run env r)).
Proof.
  intros Hrange Hagree.
  pose proof Hagree as
    (Hname & Hperiod & Hperiod' & Hwarning & Htime & last & Hlast & Hnext & Hsum).
  rewrite head_run_eq. unfold head_decision, head_report.
  rewrite Hlast, Hperiod. unfold PeriodicOperationHEAD.datetime_add, datetime_plus.
  rewrite Hsum, <- Hnext.
  destruct (_next_run_time r <=? at_check env) eqn:Hdue.
  - rewrite (PeriodicOperationFacts.run_due env r Hdue). cbv zeta.
    rewrite <- Hperiod' in Hrange.
    destruct (PeriodicOperationFacts.sum_in_range env r Hrange) as [-> ->].
    rewrite Hperiod' in *.
    destruct (operation env) as [[]|e]; simpl; rewrite ?Hname, ?Hwarning, ?Htime;
      [|destruct (should_warn env (_last_warning r) (_last_warning_time r)
                   (warning_text (_name r) e))];
      (split; [reflexivity|]);
      unfold agree, state_of; simpl;
      (repeat split; try assumption; try reflexivity);
      exists (at_finally env); repeat split; assumption.
  - rewrite (PeriodicOperationFacts.run_not_due env r Hdue).
    split; [reflexivity|exact Hagree].
Qed.

Lemma agree_call_traces (td : timedelta) (envs : list RunEnv) :
  forall (h : PeriodicOperationHEAD.t) (r : t),
    sums_in_range td envs = true ->
    agree td h r ->
    call_traces PeriodicOperationHEAD.run envs h = call_traces run envs r.
Proof.
  induction envs as [|env rest IH]; intros h r Hsums Hagree; simpl; [reflexivity|].
  simpl in Hsums. apply andb_prop in Hsums. destruct Hsums as [Hrange Hrest].
  destruct (agree_step env td h r Hrange Hagree) as [Htrace Hagree'].
  now rewrite Htrace, (IH _ _ Hrest Hagree').
Qed.

(** The first call of new tasks, when the clock has not gone back since the
    release variant was made: both call the operation, and agree after. *)
Lemma first_call (env : RunEnv) (created : datetime) (name : string) (td : timedelta) :
  created <= at_check env ->
  datetime_in_range (at_finally env + td) = true ->
  trace_of (PeriodicOperationHEAD.run env (PeriodicOperationHEAD.__init__ name (Timedelta td)))
    = trace_of (run env (__init__ created name (Timedelta td))) /\
  agree td
    (state_of (PeriodicOperationHEAD.run env (PeriodicOperationHEAD.__init__ name (Timedelta td))))
    (state_of (run env (__init__ created name (Timedelta td)))).
Proof.
  intros Hle Hrange.
  rewrite head_run_eq. unfold head_decision, head_report.
  rewrite PeriodicOperationFacts.run_due by (apply Z.leb_le; exact Hle).
  destruct (PeriodicOperationFacts.sum_in_range env (__init__ created name (Timedelta td))
              Hrange) as [-> ->].
  simpl.
  destruct (operation env) as [[]|e]; simpl;
    (split; [reflexivity|]);
    unfold agree, state_of; simpl;
    (repeat split; try reflexivity);
    exists (at_finally env); repeat split; assumption.
Qed.

Lemma nondecreasing_head (x y : datetime) (rest : list datetime) :
  nondecreasing (x :: y :: rest) = true -> x <= y.
Proof.
  simpl. intros H. apply andb_prop in H. destruct H as [H _]. now apply Z.leb_le.
Qed.

(** C10, for periods given as a [timedelta] that can be added to the clock.
    Over any sequence of calls whose clock readings, starting from the one
    the release constructor took, never go back, and where the clock as
    read in the [finally] clause plus the period is a [datetime] at every
    call, the two variants of [run] produce the same trace at every call;
    in particular they call the operation at the same calls. *)
Theorem variants_decide_alike :
  forall (created : datetime) (name : string) (td : timedelta) (envs : list RunEnv),
    nondecreasing (created :: clock_readings envs) = true ->
    sums_in_range td envs = true ->
    call_traces PeriodicOperationHEAD.run envs
        (PeriodicOperationHEAD.__init__ name (Timedelta td))
      = call_traces run envs (__init__ created name (Timedelta td)) /\
    decisions PeriodicOperationHEAD.run envs
        (PeriodicOperationHEAD.__init__ name (Timedelta td))
      = decisions run envs (__init__ created name (Timedelta td)).
Proof.
  intros created name td envs Hclock Hsums.
  assert (Htraces :
    call_traces PeriodicOperationHEAD.run envs
        (PeriodicOperationHEAD.__init__ name (Timedelta td))
      = call_traces run envs (__init__ created name (Timedelta td))).
  { destruct envs as [|env rest]; [reflexivity|].
    apply nondecreasing_head in Hclock.
    simpl in Hsums. apply andb_prop in Hsums. destruct Hsums as [Hrange Hrest].
    destruct (first_call env created name td Hclock Hrange) as [Htrace Hagree].
    cbn [call_traces]. rewrite Htrace.
    now rewrite (agree_call_traces td rest _ _ Hrest Hagree). }
  split; [exact Htraces|]. unfold decisions. now rewrite Htraces.
Qed.

(** C10 on a task with a period of 30 seconds, called when made and again
    31 seconds later. *)
Lemma variants_decide_alike_witness :
  let envs := [mkRunEnv 100 (Returns tt) 105 106 107;
               mkRunEnv 31000000 (Returns tt) 31000005 31000006 31000007] in
  decisions PeriodicOperationHEAD.run envs
      (PeriodicOperationHEAD.__init__ "refresh" (Timedelta 30000000))
    = decisions run envs (__init__ 100 "refresh" (Timedelta 30000000)).
Proof.
  intros envs.
  refine (proj2 (variants_decide_alike 100 "refresh" 30000000 envs _ _)); reflexivity.
Defined.

(** C10 fails as stated: for a period of 999999999 days, a [timedelta],
    called when made and again 31 seconds later, the release variant calls
    the operation twice (its [finally] clause raises and leaves
    [_next_run_time]) and the [HEAD] variant only once (its due test
    raises from the second call on). *)
Lemma variants_differ_counterexample :
  let envs := [mkRunEnv 100 (Returns tt) 105 106 107;
               mkRunEnv 31000000 (Returns tt) 31000005 31000006 31000007] in
  let period := Timedelta (999999999 * 86400000000) in
  nondecreasing (100 :: clock_readings envs) = true /\
  decisions PeriodicOperationHEAD.run envs
      (PeriodicOperationHEAD.__init__ "refresh" period) = [true; false] /\
  decisions run envs (__init__ 100 "refresh" period) = [true; true] /\
  decisions PeriodicOperationHEAD.run envs
      (PeriodicOperationHEAD.__init__ "refresh" period)
    <> decisions run envs (__init__ 100 "refresh" period).
Proof.
  intros envs period. repeat split; discriminate.
Qed.

(** The variants differ also for a period of 30 given as a number, which
    only the release constructor turns into a [timedelta]. *)
Lemma variants_differ_on_number_period :
  let envs := [mkRunEnv 100 (Returns tt) 105 106 107;
               mkRunEnv 31000000 (Returns tt) 31000005 31000006 31000007] in
  decisions PeriodicOperationHEAD.run envs
      (PeriodicOperationHEAD.__init__ "refresh" (Number 30)) = [true; false] /\
  decisions run envs (__init__ 100 "refresh" (Number 30)) = [true; true].
Proof.
  intros envs. split; reflexivity.
Qed.

End VariantsFacts.

(** ** [LogUploadHandler] *)

Module LogUploadFacts.

Import LogUploadHandler.

(** Unfolding a method body down to the primitives of the runtime. *)
Ltac unfold_methods :=
  unfold iteration, cycle, collect_and_upload_logs, collect, on_protocol, next_upload_time,
    try_except, try_finally, bind, get, modify, emit, perform, raise, ret,
    outcome_of, state_of, trace_of in *.

(** Case analysis on whatever a [match] of the goal or of a hypothesis
    looks at. *)
Ltac split_cases :=
  repeat (simpl in *;
          match goal with
          | |- context [match ?x with _ => _ end] =>
              lazymatch type of x with
              | prod _ _ => fail
              | _ => destruct x eqn:?
              end
          | H : context [match ?x with _ => _ end] |- _ =>
              lazymatch type of x with
              | prod _ _ => fail
              | _ => destruct x eqn:?
              end
          end);
  simpl in *.

(** [collect] neither reads nor changes the handler. *)
Lemma collect_independent (env : CycleEnv) (s s' : t) :
  outcome_of (collect env s) = outcome_of (collect env s') /\
  trace_of (collect env s) = trace_of (collect env s') /\
  state_of (collect env s) = s.
Proof.
  unfold_methods. split_cases; repeat split; reflexivity.
Qed.

(** C6.  When the [try] block of [collect_and_upload_logs] raises (the
    collector cannot be made, the collection fails, or the size of the
    archive cannot be read), the method returns normally, leaves the
    handler as it was, emits one failure event and no success event, and
    does not call [put_vm_logs].  An iteration of the loop that reaches
    this step returns, emits that one failure event, makes no upload, logs
    one warning (that of the failed collection; the loop adds none) and
    records the time of the cycle. *)
Theorem collect_failure_one_event_no_upload :
  forall (env : CycleEnv) (self : t) (e : Exception),
    outcome_of (collect env self) = Raises e ->
    outcome_of (collect_and_upload_logs env self) = Returns tt /\
    state_of (collect_and_upload_logs env self) = self /\
    filter is_failure_event (trace_of (collect_and_upload_logs env self))
      = [AddEvent false (failure_message (elapsed_at_failure env) e)] /\
    count is_success_event (trace_of (collect_and_upload_logs env self)) = 0%nat /\
    count is_upload (trace_of (collect_and_upload_logs env self)) = 0%nat /\
    (cycle_due env self = true ->
     protocol self = Some tt ->
     update_host_plugin_from_goal_state env = Returns tt ->
     outcome_of (iteration env self) = Returns tt /\
     filter is_failure_event (trace_of (iteration env self))
       = [AddEvent false (failure_message (elapsed_at_failure env) e)] /\
     count is_upload (trace_of (iteration env self)) = 0%nat /\
     filter is_warning (trace_of (iteration env self))
       = [LoggerWarn (failure_message (elapsed_at_failure env) e)] /\
     last_log_upload_time (state_of (iteration env self)) = Some (at_done env)).
Proof.
  intros env self e Hfail. unfold cycle_due.
  repeat split.
  all: unfold_methods; unfold count.
  all: split_cases; try congruence; try reflexivity.
Qed.

(** C6 on a first cycle whose collection raises. *)
Lemma collect_failure_one_event_no_upload_witness :
  let env := mkCycleEnv 10 11 (Returns tt) 12 (Returns tt)
               (Raises (mkException "OSError" "disk full")) 5 (fun _ => Returns 1234) 6
               (Returns tt) 20 false in
  let self := set_protocol __init__ in
  filter is_failure_event (trace_of (iteration env self))
    = [AddEvent false "Failed to collect logs. Elapsed time: 6 ms. Error: disk full"] /\
  count is_upload (trace_of (iteration env self)) = 0%nat.
Proof.
  intros env self.
  destruct (collect_failure_one_event_no_upload env self
              (mkException "OSError" "disk full") eq_refl)
    as (_ & _ & _ & _ & _ & Hcycle).
  destruct (Hcycle eq_refl eq_refl eq_refl) as (_ & Hevent & Hupload & _ & _).
  split; [exact Hevent|exact Hupload].
Defined.

(** The cycle touches neither [should_run] nor [protocol], and never sleeps. *)
Lemma cycle_preserves_flags (env : CycleEnv) (s : t) :
  should_run (state_of (cycle env s)) = should_run s /\
  protocol (state_of (cycle env s)) = protocol s /\
  count is_sleep (trace_of (cycle env s)) = 0%nat.
Proof.
  unfold_methods; unfold count. split_cases; repeat split; congruence.
Qed.

(** C4, as the code has it.  After a due iteration, [last_log_upload_time]
    is the clock as read at the end of the cycle when the cycle came to
    its end without raising, and is what it was at the due test when the
    cycle raised.  The cycle comes to its end exactly when the protocol is
    there, the refresh returns, and either the collection fails (which
    [collect_and_upload_logs] handles itself) or the upload returns. *)
Theorem last_log_upload_time_after_due_cycle :
  forall (env : CycleEnv) (self : t),
    cycle_due env self = true ->
    (outcome_of (cycle env self) = Returns tt ->
     last_log_upload_time (state_of (iteration env self)) = Some (at_done env)) /\
    ((exists e, outcome_of (cycle env self) = Raises e) ->
     last_log_upload_time (state_of (iteration env self))
       = Some (match last_log_upload_time self with
               | Some last => last
               | None => at_first env - LOG_UPLOAD_PERIOD
               end)) /\
    (outcome_of (cycle env self) = Returns tt <->
     protocol self = Some tt /\
     update_host_plugin_from_goal_state env = Returns tt /\
     ((exists e, outcome_of (collect env self) = Raises e) \/
      put_vm_logs env = Returns tt)).
Proof.
  intros env self Hdue. unfold cycle_due in Hdue.
  split; [|split; [|split]].
  - intros Hreturns. unfold_methods. split_cases; congruence.
  - intros [e Hraises]. unfold_methods. split_cases; congruence.
  - intros Hreturns. unfold_methods.
    split_cases; try congruence;
      repeat match goal with u : unit |- _ => destruct u end;
      (split; [reflexivity|split; [reflexivity|]]);
      solve [right; reflexivity | left; eexists; reflexivity].
  - intros (Hprotocol & Hupdate & [[e Hcollect]|Hupload]);
      unfold_methods; split_cases; congruence.
Qed.

(** C4 on a due cycle that runs to its end. *)
Lemma last_log_upload_time_after_due_cycle_witness :
  let env := mkCycleEnv 10 11 (Returns tt) 12 (Returns tt) (Returns "/var/lib/waagent/logs.zip")
               5 (fun _ => Returns 1234) 6 (Returns tt) 20 false in
  last_log_upload_time (state_of (iteration env (set_protocol __init__))) = Some 20.
Proof.
  intros env.
  refine (proj1 (last_log_upload_time_after_due_cycle env (set_protocol __init__) _) _);
    reflexivity.
Defined.

(** C4 fails as stated: a due cycle whose refresh raises leaves
    [last_log_upload_time] where it was, not at the clock of the cycle. *)
Lemma last_log_upload_time_not_advanced_counterexample :
  let env := mkCycleEnv 3600000000 3600000001
               (Raises (mkException "ProtocolError" "network unreachable"))
               3600000002 (Returns tt) (Returns "/var/lib/waagent/logs.zip")
               5 (fun _ => Returns 1234) 6 (Returns tt) 3600000003 false in
  let self := mk (Some 0) (Some tt) (Some tt) true in
  cycle_due env self = true /\
  last_log_upload_time (state_of (iteration env self)) = Some 0 /\
  last_log_upload_time (state_of (iteration env self)) <> Some (at_done env) /\
  last_log_upload_time (state_of (iteration env self)) <> Some (at_check env).
Proof.
  intros env self. repeat split; discriminate.
Qed.

Lemma count_app (p : Event -> bool) (t1 t2 : Trace) :
  count p (t1 ++ t2) = (count p t1 + count p t2)%nat.
Proof. unfold count. now rewrite filter_app, length_app. Qed.

(** An iteration always comes to its end: what the cycle raised is logged,
    and the sleep follows. *)
Lemma iteration_returns (env : CycleEnv) (s : t) :
  outcome_of (iteration env s) = Returns tt /\
  trace_of (iteration env s)
    = trace_of (cycle env s)
      ++ match outcome_of (cycle env s) with
         | Raises e => [LoggerWarn (main_loop_warning e)]
         | Returns _ => []
         end
      ++ [TimeSleep 3600] /\
  state_of (iteration env s) = state_of (cycle env s).
Proof.
  unfold iteration, try_except, bind, emit, outcome_of, state_of, trace_of.
  destruct (cycle env s) as [[[[]|e] s1] t1]; simpl.
  - repeat split; reflexivity.
  - repeat split; try reflexivity. now rewrite <- app_assoc.
Qed.

Lemma iteration_sleeps_once (env : CycleEnv) (s : t) :
  count is_sleep (trace_of (iteration env s)) = 1%nat.
Proof.
  destruct (iteration_returns env s) as (_ & -> & _).
  rewrite !count_app.
  destruct (cycle_preserves_flags env s) as (_ & _ & ->).
  now destruct (outcome_of (cycle env s)).
Qed.

(** The equation of the loop when [should_run] is found true. *)
Lemma loop_cons (env : CycleEnv) (rest : list CycleEnv) (s : t) :
  should_run s = true ->
  loop (env :: rest) s =
    let s1 := state_of (iteration env s) in
    let s2 := if stop_called env then set_should_run false s1 else s1 in
    (outcome_of (loop rest s2), state_of (loop rest s2),
     trace_of (iteration env s) ++ trace_of (loop rest s2)).
Proof.
  intros Hrun.
  pose proof (iteration_returns env s) as (Hout & _ & _).
  cbn [loop]. unfold bind at 1. unfold get. rewrite Hrun.
  unfold bind at 1. unfold outcome_of, state_of, trace_of in *.
  destruct (iteration env s) as [[o s1] t1]; simpl in Hout |- *; subst o.
  unfold bind at 1.
  destruct (stop_called env); unfold modify, ret; simpl;
    now destruct (loop rest _) as [[o3 s3] t3].
Qed.

Lemma loop_stopped (cycles : list CycleEnv) (s : t) :
  should_run s = false -> loop cycles s = (Returns Exited, s, []).
Proof.
  intros Hrun. destruct cycles; cbn [loop]; unfold bind, get, ret; now rewrite Hrun.
Qed.

Lemma loop_returns (cycles : list CycleEnv) :
  forall s : t, exists how, outcome_of (loop cycles s) = Returns how.
Proof.
  induction cycles as [|env rest IH]; intros s.
  - cbn [loop]. unfold bind, get, ret, outcome_of.
    destruct (should_run s); simpl; eauto.
  - destruct (should_run s) eqn:Hrun.
    + rewrite (loop_cons env rest s Hrun). cbv zeta. unfold outcome_of at 1. simpl.
      apply IH.
    + rewrite (loop_stopped _ s Hrun). now exists Exited.
Qed.

(** C8.  An iteration of the loop never raises: whatever the cycle raised
    is caught, logged as a warning, and followed by the sleep.  So the
    loop itself never raises, and as long as nobody asks it to stop it
    goes through every iteration, failed or not, sleeping once in each. *)
Theorem loop_survives_failures :
  forall (cycles : list CycleEnv) (self : t),
    (forall (env : CycleEnv) (s : t),
        outcome_of (iteration env s) = Returns tt /\
        trace_of (iteration env s)
          = trace_of (cycle env s)
            ++ match outcome_of (cycle env s) with
               | Raises e => [LoggerWarn (main_loop_warning e)]
               | Returns _ => []
               end
            ++ [TimeSleep 3600]) /\
    (exists how, outcome_of (loop cycles self) = Returns how) /\
    (should_run self = true ->
     forallb (fun env => negb (stop_called env)) cycles = true ->
     outcome_of (loop cycles self) = Returns StillLooping /\
     count is_sleep (trace_of (loop cycles self)) = List.length cycles).
Proof.
  intros cycles self. split; [|split].
  - intros env s. destruct (iteration_returns env s) as (H1 & H2 & _). now split.
  - apply loop_returns.
  - revert self. induction cycles as [|env rest IH]; intros self Hrun Hnostop.
    + cbn [loop]. unfold bind, get, ret, outcome_of, trace_of. rewrite Hrun. now split.
    + simpl in Hnostop. apply andb_prop in Hnostop. destruct Hnostop as [Hstop Hrest].
      apply negb_true_iff in Hstop.
      rewrite (loop_cons env rest self Hrun). cbv zeta. rewrite Hstop.
      unfold outcome_of at 1, trace_of at 1. simpl fst. simpl snd.
      destruct (iteration_returns env self) as (_ & _ & Hstate).
      destruct (cycle_preserves_flags env self) as (Hflag & _ & _).
      assert (Hrun' : should_run (state_of (iteration env self)) = true)
        by (rewrite Hstate, Hflag; exact Hrun).
      destruct (IH _ Hrun' Hrest) as [Hout Hcount].
      split; [exact Hout|].
      unfold trace_of at 1. cbn [snd].
      rewrite count_app, iteration_sleeps_once, Hcount. reflexivity.
Qed.

(** C8 on three iterations: the protocol is missing in all of them, the
    cycle raises each time, and the loop sleeps three times. *)
Lemma loop_survives_failures_witness :
  let env := mkCycleEnv 10 11 (Returns tt) 12 (Returns tt) (Returns "/var/lib/waagent/logs.zip")
               5 (fun _ => Returns 1234) 6 (Returns tt) 20 false in
  outcome_of (loop [env; env; env] __init__) = Returns StillLooping /\
  count is_sleep (trace_of (loop [env; env; env] __init__)) = 3%nat /\
  count is_warning (trace_of (loop [env; env; env] __init__)) = 3%nat.
Proof.
  intros env.
  destruct (loop_survives_failures [env; env; env] __init__) as (_ & _ & Hloop).
  destruct (Hloop eq_refl eq_refl) as [Hout Hsleeps].
  split; [exact Hout|]. split; [exact Hsleeps|reflexivity].
Defined.

End LogUploadFacts.

(** ** More on [PeriodicOperation.run] (release-2.2.53) *)

Module PeriodicOperationMore.

Import PeriodicOperation PeriodicOperationFacts.

(** Case analysis on a call of [run]: not due; due and nothing reaching the
    handler; due and an exception reaching it, with or without a warning. *)
Ltac run_cases env self :=
  let Hdue := fresh "Hdue" in
  let Hcaught := fresh "Hcaught" in
  let Hwarn := fresh "Hwarn" in
  destruct (_next_run_time self <=? at_check env) eqn:Hdue;
  [ rewrite (run_due env self Hdue);
    destruct (caught env self) as [?e|] eqn:Hcaught; cbv zeta;
    [ destruct (should_warn env (_last_warning self) (_last_warning_time self)
                  (warning_text (_name self) e)) eqn:Hwarn | ]
  | rewrite (run_not_due env self Hdue) ].

(** A sequence of calls: the first call, then the rest from the state the
    first left. *)
Lemma run_all_cons (env : RunEnv) (rest : list RunEnv) (self : t) :
  run_all run (env :: rest) self =
    (outcome_of (run_all run rest (state_of (run env self))),
     state_of (run_all run rest (state_of (run env self))),
     trace_of (run env self) ++ trace_of (run_all run rest (state_of (run env self)))).
Proof.
  pose proof (run_returns env self) as H1.
  cbn [run_all]. unfold bind, outcome_of, state_of, trace_of in *.
  destruct (run env self) as [[o1 s1] t1]; simpl in *; subst o1.
  now destruct (run_all run rest s1) as [[o2 s2] t2].
Qed.

Lemma run_keeps_name_and_period (env : RunEnv) (self : t) :
  _name (state_of (run env self)) = _name self /\
  _period (state_of (run env self)) = _period self.
Proof.
  destruct (after_run_keeps env self) as (Hname & Hperiod & _ & _).
  run_cases env self; split; assumption || reflexivity.
Qed.

(** What reaches the handler depends on the task through its period only. *)
Lemma caught_period (env : RunEnv) (s self : t) :
  _period s = _period self -> caught env s = caught env self.
Proof. unfold caught. now intros ->. Qed.

Lemma run_all_returns (envs : list RunEnv) :
  forall self : t,
    outcome_of (run_all run envs self) = Returns tt /\
    _name (state_of (run_all run envs self)) = _name self /\
    _period (state_of (run_all run envs self)) = _period self.
Proof.
  induction envs as [|env rest IH]; intros self; [repeat split|].
  rewrite run_all_cons.
  destruct (IH (state_of (run env self))) as (Hout & Hname & Hperiod).
  destruct (run_keeps_name_and_period env self) as [Hname1 Hperiod1].
  set (after := run_all run rest (state_of (run env self))) in *.
  change (outcome_of after = Returns tt /\
          _name (state_of after) = _name self /\
          _period (state_of after) = _period self).
  repeat split; congruence.
Qed.

Lemma run_all_not_due (envs : list RunEnv) :
  forall self : t,
    (forall env, In env envs -> at_check env < _next_run_time self) ->
    run_all run envs self = (Returns tt, self, []).
Proof.
  induction envs as [|env rest IH]; intros self Hearly; [reflexivity|].
  rewrite run_all_cons.
  rewrite (run_not_due env self) by (apply Z.leb_gt, Hearly; now left).
  unfold state_of, trace_of, outcome_of. cbn [fst snd].
  rewrite IH by (intros env' Hin; apply Hearly; now right).
  reflexivity.
Qed.

(** X1.  Whatever the operation does and whatever the clock reads, a
    sequence of calls of [run] returns normally and leaves the name and
    the period of the task as they were. *)
Theorem run_all_isolates_failures :
  forall (envs : list RunEnv) (self : t),
    outcome_of (run_all run envs self) = Returns tt /\
    _name (state_of (run_all run envs self)) = _name self /\
    _period (state_of (run_all run envs self)) = _period self.
Proof. intros envs self. apply run_all_returns. Qed.

(** X2.  As long as every due test reads a time before [_next_run_time],
    a sequence of calls does nothing at all: no call of the operation, no
    warning, no change of the task. *)
Theorem run_all_before_due_is_noop :
  forall (envs : list RunEnv) (self : t),
    (forall env, In env envs -> at_check env < _next_run_time self) ->
    run_all run envs self = (Returns tt, self, []).
Proof. intros envs self. apply run_all_not_due. Qed.

Lemma run_all_before_due_is_noop_witness :
  let self := mk "refresh" 30000000 1000 None None in
  let early c := mkRunEnv c (Returns tt) c c c in
  run_all run [early 10; early 500; early 999] self = (Returns tt, self, []).
Proof.
  intros self early. apply run_all_before_due_is_noop.
  intros env [<-|[<-|[<-|[]]]]; reflexivity.
Defined.

(** X3.  A task does not run twice within its period: after a due call
    for which the clock of the [finally] clause plus the period is a
    [datetime], every later call whose due test reads a time before that
    sum leaves the operation alone, so the whole sequence calls it once. *)
Theorem run_once_per_period :
  forall (env : RunEnv) (envs : list RunEnv) (self : t),
    _next_run_time self <= at_check env ->
    datetime_in_range (at_finally env + _period self) = true ->
    (forall env', In env' envs -> at_check env' < at_finally env + _period self) ->
    count is_operation_call (trace_of (run_all run (env :: envs) self)) = 1%nat /\
    _next_run_time (state_of (run_all run (env :: envs) self))
      = at_finally env + _period self.
Proof.
  intros env envs self Hdue Hrange Hsoon. apply Z.leb_le in Hdue.
  destruct (run_due_facts env self Hdue) as (_ & Hcalls & Hnext & _ & _).
  destruct (sum_in_range env self Hrange) as [Hafter _].
  rewrite Hafter in Hnext. simpl in Hnext.
  rewrite run_all_cons. unfold trace_of at 1, state_of at 1. cbn [fst snd].
  rewrite run_all_not_due by (intros env' Hin; rewrite Hnext; now apply Hsoon).
  unfold trace_of at 2, state_of at 1. cbn [fst snd]. rewrite app_nil_r.
  split; [exact Hcalls|exact Hnext].
Qed.

Lemma run_once_per_period_witness :
  let self := __init__ 100 "refresh" (Number 30) in
  let call c := mkRunEnv c (Returns tt) (c + 5) (c + 6) (c + 7) in
  count is_operation_call
    (trace_of (run_all run [call 100; call 1000000; call 29000000] self)) = 1%nat.
Proof.
  intros self call.
  refine (proj1 (run_once_per_period (call 100) [call 1000000; call 29000000] self _ _ _)).
  - simpl. discriminate.
  - reflexivity.
  - intros env [<-|[<-|[]]]; reflexivity.
Defined.

Lemma run_keeps_consistency (env : RunEnv) (self : t) :
  warning_memory_consistent self -> warning_memory_consistent (state_of (run env self)).
Proof.
  unfold warning_memory_consistent. intros Hself.
  destruct (after_run_keeps env self) as (_ & _ & Hw & Ht).
  run_cases env self; unfold state_of; simpl; rewrite ?Hw, ?Ht; try exact Hself;
    split; discriminate.
Qed.

(** X4.  The two attributes that remember the last warning are always set
    together, from the constructor on and through any sequence of calls.
    Hence the middle operand of the guard of [logger.warn] never decides:
    a warning is logged exactly when its text differs from the remembered
    one or the remembered time is at least 60 minutes back. *)
Theorem warning_memory_invariant :
  forall (created : datetime) (name : string) (period : PeriodArg) (envs : list RunEnv),
    warning_memory_consistent (state_of (run_all run envs (__init__ created name period))) /\
    (forall (env : RunEnv) (warning : string),
        should_warn env
          (_last_warning (state_of (run_all run envs (__init__ created name period))))
          (_last_warning_time (state_of (run_all run envs (__init__ created name period))))
          warning = true <->
        (_last_warning (state_of (run_all run envs (__init__ created name period)))
           <> Some warning \/
         exists last,
           _last_warning_time (state_of (run_all run envs (__init__ created name period)))
             = Some last /\
           last + timedelta_of_minutes 60 <= at_warning_check env)).
Proof.
  intros created name period envs.
  assert (Hcons : forall self, warning_memory_consistent self ->
            warning_memory_consistent (state_of (run_all run envs self))).
  { induction envs as [|env rest IH]; intros self Hself; [exact Hself|].
    rewrite run_all_cons. apply IH, run_keeps_consistency, Hself. }
  specialize (Hcons (__init__ created name period)).
  set (reached := state_of (run_all run envs (__init__ created name period))) in *.
  assert (Hreached : warning_memory_consistent reached)
    by (apply Hcons; split; reflexivity).
  split; [exact Hreached|].
  intros env warning. rewrite should_warn_iff. split.
  - intros [Hdiff|[Hnone|Hcool]]; [now left| |now right].
    left. apply Hreached in Hnone. congruence.
  - intros [Hdiff|Hcool]; [now left|now right; right].
Qed.

(** A call in which nothing reaches the handler (the operation returns and
    the sum of the [finally] clause is a [datetime]), or which is not due,
    leaves the memory of warnings. *)
Lemma quiet_call_keeps_warning_memory (env : RunEnv) (self : t) :
  caught env self = None ->
  _last_warning (state_of (run env self)) = _last_warning self /\
  _last_warning_time (state_of (run env self)) = _last_warning_time self /\
  filter is_warning (trace_of (run env self)) = [].
Proof.
  intros Hquiet. destruct (after_run_keeps env self) as (_ & _ & Hw & Ht).
  run_cases env self; try discriminate; repeat split; assumption || reflexivity.
Qed.

Lemma quiet_calls_keep_warning_memory (envs : list RunEnv) :
  forall self : t,
    (forall env, In env envs -> caught env self = None) ->
    _last_warning (state_of (run_all run envs self)) = _last_warning self /\
    _last_warning_time (state_of (run_all run envs self)) = _last_warning_time self /\
    filter is_warning (trace_of (run_all run envs self)) = [].
Proof.
  induction envs as [|env rest IH]; intros self Hquiet; [repeat split|].
  rewrite run_all_cons.
  destruct (quiet_call_keeps_warning_memory env self (Hquiet env (or_introl eq_refl)))
    as (Hw & Ht & Hlog).
  destruct (run_keeps_name_and_period env self) as [_ Hperiod].
  destruct (IH (state_of (run env self))) as (Hw' & Ht' & Hlog').
  { intros env' Hin. rewrite (caught_period env' _ self Hperiod). apply Hquiet. now right. }
  set (after := run_all run rest (state_of (run env self))) in *.
  change (_last_warning (state_of after) = _last_warning self /\
          _last_warning_time (state_of after) = _last_warning_time self /\
          filter is_warning (trace_of (run env self) ++ trace_of after) = []).
  rewrite filter_app, Hlog, Hlog'. repeat split; congruence.
Qed.

(** X5.  Successful runs do not reset the flood protection.  After a
    failure that was logged, and any number of calls in which nothing
    fails (the operation returns and the sum of the [finally] clause is a
    [datetime], or the task is not due), the same failure is logged again
    only when the clock has reached the time recorded with the first
    warning plus 60 minutes. *)
Theorem successes_do_not_reset_cooldown :
  forall (env1 : RunEnv) (envs : list RunEnv) (env3 : RunEnv) (self : t) (e : Exception),
    _next_run_time self <= at_check env1 ->
    caught env1 self = Some e ->
    filter is_warning (trace_of (run env1 self)) = [LoggerWarn (warning_text (_name self) e)] ->
    (forall env, In env envs -> caught env self = None) ->
    _next_run_time (state_of (run_all run (env1 :: envs) self)) <= at_check env3 ->
    caught env3 self = Some e ->
    filter is_warning (trace_of (run env3 (state_of (run_all run (env1 :: envs) self))))
      = if at_warning_update env1 + timedelta_of_minutes 60 <=? at_warning_check env3
        then [LoggerWarn (warning_text (_name self) e)]
        else [].
Proof.
  intros env1 envs env3 self e Hdue1 Hcaught1 Hlogged Hquiet Hdue3 Hcaught3.
  apply Z.leb_le in Hdue1, Hdue3.
  set (warning := warning_text (_name self) e) in *.
  (* the state after the first failure *)
  assert (Hfirst : _last_warning (state_of (run env1 self)) = Some warning /\
                   _last_warning_time (state_of (run env1 self))
                     = Some (at_warning_update env1)).
  { rewrite (run_due env1 self Hdue1), Hcaught1 in Hlogged |- *. cbv zeta in Hlogged |- *.
    fold warning in Hlogged |- *.
    destruct (should_warn env1 (_last_warning self) (_last_warning_time self) warning);
      [split; reflexivity|discriminate]. }
  destruct Hfirst as [Hw1 Ht1].
  destruct (run_keeps_name_and_period env1 self) as [Hname1 Hperiod1].
  (* the calls in between leave it *)
  rewrite run_all_cons in Hdue3 |- *.
  set (reached := state_of
         (outcome_of (run_all run envs (state_of (run env1 self))),
          state_of (run_all run envs (state_of (run env1 self))),
          trace_of (run env1 self) ++ trace_of (run_all run envs (state_of (run env1 self)))))
    in *.
  assert (Hreached : reached = state_of (run_all run envs (state_of (run env1 self))))
    by reflexivity.
  destruct (quiet_calls_keep_warning_memory envs (state_of (run env1 self)))
    as (Hw & Ht & _).
  { intros env Hin. rewrite (caught_period env _ self Hperiod1). now apply Hquiet. }
  destruct (run_all_returns envs (state_of (run env1 self))) as (_ & Hname & Hperiod).
  rewrite <- Hreached in Hw, Ht, Hname, Hperiod.
  rewrite (run_due env3 reached Hdue3).
  rewrite (caught_period env3 reached self) by congruence.
  rewrite Hcaught3. cbv zeta.
  rewrite Hname, Hname1, Hw, Ht, Hw1, Ht1. fold warning.
  unfold should_warn, option_eqb. rewrite String.eqb_refl. cbn [negb].
  change (timedelta_of_minutes 60) with _LOG_WARNING_PERIOD.
  now destruct (at_warning_update env1 + _LOG_WARNING_PERIOD <=? at_warning_check env3).
Qed.

(** X5 on a failure at 100, a success 30 seconds later and the same failure
    after 30 more seconds: the second failure is not logged. *)
Lemma successes_do_not_reset_cooldown_witness :
  let failure := Raises (mkException "Exception" "network unreachable") in
  let env1 := mkRunEnv 100 failure 105 106 107 in
  let env2 := mkRunEnv 30000105 (Returns tt) 30000106 30000107 30000108 in
  let env3 := mkRunEnv 60000106 failure 60000107 60000108 60000109 in
  let self := __init__ 100 "refresh" (Number 30) in
  filter is_warning (trace_of (run env3 (state_of (run_all run [env1; env2] self)))) = [].
Proof.
  intros failure env1 env2 env3 self.
  refine (successes_do_not_reset_cooldown env1 [env2] env3 self
            (mkException "Exception" "network unreachable") _ _ _ _ _ _).
  - simpl. discriminate.
  - reflexivity.
  - reflexivity.
  - intros env [<-|[]]. reflexivity.
  - simpl. discriminate.
  - reflexivity.
Defined.

(** Texts: a common prefix or suffix of two strings can be taken off. *)
Lemma append_inv_head (p a b : string) : (p ++ a = p ++ b)%string -> a = b.
Proof.
  induction p as [|c p IH]; simpl; intros H; [exact H|].
  injection H as H. now apply IH.
Qed.

Lemma list_ascii_of_append (a b : string) :
  list_ascii_of_string (a ++ b) = list_ascii_of_string a ++ list_ascii_of_string b.
Proof. induction a as [|c a IH]; simpl; [reflexivity|now rewrite IH]. Qed.

Lemma append_inv_tail (a b q : string) : (a ++ q = b ++ q)%string -> a = b.
Proof.
  intros H. apply (f_equal list_ascii_of_string) in H.
  rewrite !list_ascii_of_append in H. apply app_inv_tail in H.
  apply (f_equal string_of_list_ascii) in H.
  now rewrite !string_of_list_ascii_of_string in H.
Qed.

(** Two warnings of a task are the same text only for the same error text. *)
Lemma warning_text_inj (name : string) (e1 e2 : Exception) :
  warning_text name e1 = warning_text name e2 -> ustr e1 = ustr e2.
Proof.
  unfold warning_text. intros H.
  apply append_inv_head, append_inv_head, append_inv_head in H.
  now apply append_inv_tail in H.
Qed.

Lemma Some_inj {A : Type} (a b : A) : Some a = Some b -> a = b.
Proof. now intros [=]. Qed.

(** After a due call in which an exception reached the handler, the
    remembered warning is the one of that exception, whether it was logged
    by this call or before. *)
Lemma failure_is_remembered (env : RunEnv) (self : t) (e : Exception) :
  (_next_run_time self <=? at_check env) = true ->
  caught env self = Some e ->
  _last_warning (state_of (run env self)) = Some (warning_text (_name self) e) /\
  _name (state_of (run env self)) = _name self /\
  _period (state_of (run env self)) = _period self.
Proof.
  intros Hdue Hcaught. rewrite (run_due env self Hdue), Hcaught. cbv zeta.
  destruct (after_run_keeps env self) as (Hname & Hperiod & Hw & _).
  destruct (should_warn env (_last_warning self) (_last_warning_time self)
              (warning_text (_name self) e)) eqn:Hwarn;
    unfold state_of; simpl; [repeat split; assumption|].
  repeat split; try assumption. rewrite Hw.
  unfold should_warn, option_eqb in Hwarn.
  destruct (_last_warning self) as [w|]; [|discriminate].
  destruct (String.eqb_spec (warning_text (_name self) e) w) as [->|]; [reflexivity|discriminate].
Qed.

Lemma new_failure_is_logged (env : RunEnv) (self : t) (e : Exception) :
  (_next_run_time self <=? at_check env) = true ->
  caught env self = Some e ->
  _last_warning self <> Some (warning_text (_name self) e) ->
  filter is_warning (trace_of (run env self)) = [LoggerWarn (warning_text (_name self) e)].
Proof.
  intros Hdue Hcaught Hnew. rewrite (run_due env self Hdue), Hcaught. cbv zeta.
  destruct (should_warn env (_last_warning self) (_last_warning_time self)
              (warning_text (_name self) e)) eqn:Hwarn; [reflexivity|].
  exfalso. assert (H : should_warn env (_last_warning self) (_last_warning_time self)
                         (warning_text (_name self) e) = true)
    by (apply should_warn_iff; now left).
  congruence.
Qed.

(** X6.  The flood protection remembers one warning only.  When two
    failures with different texts alternate on due calls, every occurrence
    is logged at once, whatever the clock reads: the second failure because
    its text is new, the third because the second has replaced the first
    in the memory.  (The failure of a call is the exception that reaches
    the handler.) *)
Theorem alternating_failures_are_all_logged :
  forall (env1 env2 env3 : RunEnv) (self : t) (e1 e2 : Exception),
    ustr e1 <> ustr e2 ->
    _next_run_time self <= at_check env1 ->
    caught env1 self = Some e1 ->
    _next_run_time (state_of (run env1 self)) <= at_check env2 ->
    caught env2 self = Some e2 ->
    _next_run_time (state_of (run env2 (state_of (run env1 self)))) <= at_check env3 ->
    caught env3 self = Some e1 ->
    filter is_warning (trace_of (run env2 (state_of (run env1 self))))
      = [LoggerWarn (warning_text (_name self) e2)] /\
    filter is_warning
      (trace_of (run env3 (state_of (run env2 (state_of (run env1 self))))))
      = [LoggerWarn (warning_text (_name self) e1)].
Proof.
  intros env1 env2 env3 self e1 e2 Hdiff Hdue1 Hc1 Hdue2 Hc2 Hdue3 Hc3.
  apply Z.leb_le in Hdue1, Hdue2, Hdue3.
  destruct (failure_is_remembered env1 self e1 Hdue1 Hc1) as (Hw1 & Hname1 & Hper1).
  set (s1 := state_of (run env1 self)) in *.
  rewrite <- (caught_period env2 s1 self Hper1) in Hc2.
  destruct (failure_is_remembered env2 s1 e2 Hdue2 Hc2) as (Hw2 & Hname2 & Hper2).
  set (s2 := state_of (run env2 s1)) in *.
  rewrite <- (caught_period env3 s2 self) in Hc3 by congruence.
  split.
  - rewrite <- Hname1. apply new_failure_is_logged; [exact Hdue2|exact Hc2|].
    rewrite Hw1, Hname1. intros H. apply Some_inj, warning_text_inj in H. contradiction.
  - rewrite <- Hname1, <- Hname2. apply new_failure_is_logged; [exact Hdue3|exact Hc3|].
    rewrite Hw2, Hname2. intros H. apply Some_inj, warning_text_inj in H. congruence.
Qed.

(** X6 on a task with a period of 30 seconds failing every 30 seconds with
    two errors in turn. *)
Lemma alternating_failures_are_all_logged_witness :
  let a := mkException "IOError" "disk full" in
  let b := mkException "IOError" "network unreachable" in
  let env1 := mkRunEnv 100 (Raises a) 105 106 107 in
  let env2 := mkRunEnv 30000105 (Raises b) 30000106 30000107 30000108 in
  let env3 := mkRunEnv 60000106 (Raises a) 60000107 60000108 60000109 in
  let self := __init__ 100 "refresh" (Number 30) in
  filter is_warning (trace_of (run env3 (state_of (run env2 (state_of (run env1 self))))))
    = [LoggerWarn (warning_text "refresh" a)].
Proof.
  intros a b env1 env2 env3 self.
  refine (proj2 (alternating_failures_are_all_logged env1 env2 env3 self a b _ _ _ _ _ _ _)).
  - discriminate.
  - simpl. discriminate.
  - reflexivity.
  - simpl. discriminate.
  - reflexivity.
  - simpl. discriminate.
  - reflexivity.
Defined.

(** X7.  With a period that is not negative and a clock that does not go
    back between the due test and the [finally] clause, a call of [run]
    never moves [_next_run_time] back.  A due call for which the clock of
    the [finally] clause plus the period is a [datetime] moves it to a
    time not before the clock of its due test. *)
Theorem next_run_time_never_decreases :
  forall (env : RunEnv) (self : t),
    0 <= _period self ->
    at_check env <= at_finally env ->
    _next_run_time self <= _next_run_time (state_of (run env self)) /\
    (_next_run_time self <= at_check env ->
     datetime_in_range (at_finally env + _period self) = true ->
     at_check env <= _next_run_time (state_of (run env self))).
Proof.
  intros env self Hperiod Hclock.
  destruct (_next_run_time self <=? at_check env) eqn:Hdue.
  - destruct (run_due_facts env self Hdue) as (_ & _ & -> & _ & _).
    apply Z.leb_le in Hdue.
    destruct (datetime_in_range (at_finally env + _period self)) eqn:Hrange.
    + destruct (sum_in_range env self Hrange) as [-> _]. simpl. lia.
    + destruct (sum_out_of_range env self Hrange) as [-> _].
      split; [lia|discriminate].
  - rewrite (run_not_due env self Hdue). apply Z.leb_gt in Hdue.
    unfold state_of. simpl. lia.
Qed.

Lemma next_run_time_never_decreases_witness :
  let env := mkRunEnv 100 (Returns tt) 105 106 107 in
  let self := __init__ 100 "refresh" (Number 30) in
  at_check env <= _next_run_time (state_of (run env self)).
Proof.
  intros env self.
  refine (proj2 (next_run_time_never_decreases env self _ _) _ _);
    try reflexivity; simpl; discriminate.
Defined.

(** X8.  Running a due task and then asking the scheduler to wait for it.
    When the clock of the [finally] clause plus the period is a
    [datetime], the scheduler returns without sleeping exactly when the
    clock has reached that sum.  When it is not, the task is still due and
    the scheduler does not sleep at any time from the due test on. *)
Theorem sleep_after_run :
  forall (env : RunEnv) (self : t) (utcnow : datetime),
    _next_run_time self <= at_check env ->
    (datetime_in_range (at_finally env + _period self) = true ->
     (trace_of (sleep_until_next_operation utcnow [state_of (run env self)] tt) = [] <->
      at_finally env + _period self <= utcnow)) /\
    (datetime_in_range (at_finally env + _period self) = false ->
     at_check env <= utcnow ->
     sleep_until_next_operation utcnow [state_of (run env self)] tt = (Returns tt, tt, [])).
Proof.
  intros env self utcnow Hdue. apply Z.leb_le in Hdue.
  destruct (run_due_facts env self Hdue) as (_ & _ & Hnext & _ & _).
  rewrite SchedulerFacts.sleep_until_next_operation_cons.
  unfold earliest. cbn [map fold_left]. unfold next_run_time. rewrite Hnext.
  apply Z.leb_le in Hdue. split.
  - intros Hrange. destruct (sum_in_range env self Hrange) as [-> _]. simpl.
    destruct (Z.ltb_spec 0 (at_finally env + _period self - utcnow)); unfold trace_of; simpl.
    + split; [discriminate|lia].
    + split; [lia|reflexivity].
  - intros Hrange Hnow. destruct (sum_out_of_range env self Hrange) as [-> _].
    destruct (Z.ltb_spec 0 (_next_run_time self - utcnow)); [lia|reflexivity].
Qed.

Lemma sleep_after_run_witness :
  let env := mkRunEnv 100 (Returns tt) 105 106 107 in
  let self := __init__ 100 "refresh" (Number 30) in
  trace_of (sleep_until_next_operation 30000105 [state_of (run env self)] tt) = [].
Proof.
  intros env self.
  refine (proj2 (proj1 (sleep_after_run env self 30000105 _) _) _).
  - simpl. discriminate.
  - reflexivity.
  - simpl. discriminate.
Defined.

(** X22.  A period that cannot be added to the clock defeats the throttle.
    When, at every call of a sequence, the task is due and the clock of
    the [finally] clause plus the period is no [datetime], the operation
    is called at every call and [_next_run_time] never moves.  In each such
    call the exception that reaches the handler is the [OverflowError] of
    the [finally] clause, also when the operation has raised one of its
    own: the only warning [run] can log then is that of the overflow. *)
Theorem unaddable_period_runs_every_time :
  forall (envs : list RunEnv) (self : t),
    (forall env, In env envs ->
       _next_run_time self <= at_check env /\
       datetime_in_range (at_finally env + _period self) = false) ->
    count is_operation_call (trace_of (run_all run envs self)) = List.length envs /\
    _next_run_time (state_of (run_all run envs self)) = _next_run_time self /\
    (forall env, In env envs ->
       filter is_warning (trace_of (run env self))
       = if should_warn env (_last_warning self) (_last_warning_time self)
              (warning_text (_name self) (OverflowError "date value out of range"))
         then [LoggerWarn
                 (warning_text (_name self) (OverflowError "date value out of range"))]
         else []).
Proof.
  intros envs self Hall. split; [|split].
  - revert self Hall. induction envs as [|env rest IH]; intros self Hall; [reflexivity|].
    destruct (Hall env (or_introl eq_refl)) as [Hdue Hrange]. apply Z.leb_le in Hdue.
    destruct (run_due_facts env self Hdue) as (_ & Hcalls & Hnext & _ & Hperiod).
    destruct (sum_out_of_range env self Hrange) as [Hafter _]. rewrite Hafter in Hnext.
    rewrite run_all_cons. unfold trace_of at 1. cbn [snd].
    unfold count in *. rewrite filter_app, length_app, Hcalls.
    rewrite IH; [reflexivity|].
    intros env' Hin. rewrite Hnext, Hperiod. apply Hall. now right.
  - revert self Hall. induction envs as [|env rest IH]; intros self Hall; [reflexivity|].
    destruct (Hall env (or_introl eq_refl)) as [Hdue Hrange]. apply Z.leb_le in Hdue.
    destruct (run_due_facts env self Hdue) as (_ & _ & Hnext & _ & Hperiod).
    destruct (sum_out_of_range env self Hrange) as [Hafter _]. rewrite Hafter in Hnext.
    rewrite run_all_cons. unfold state_of at 1. cbn [fst snd].
    rewrite IH; [exact Hnext|].
    intros env' Hin. rewrite Hnext, Hperiod. apply Hall. now right.
  - intros env Hin. destruct (Hall env Hin) as [Hdue Hrange]. apply Z.leb_le in Hdue.
    destruct (sum_out_of_range env self Hrange) as [_ Hcaught].
    rewrite (run_due env self Hdue), Hcaught. cbv zeta.
    now destruct (should_warn env _ _ _).
Qed.

(** X22 on a task with a period of 999999999 days whose operation fails at
    each of three calls a second apart. *)
Lemma unaddable_period_runs_every_time_witness :
  let failure := Raises (mkException "Exception" "network unreachable") in
  let call c := mkRunEnv c failure (c + 5) (c + 6) (c + 7) in
  let self := __init__ 100 "refresh" (Timedelta (999999999 * 86400000000)) in
  count is_operation_call
    (trace_of (run_all run [call 100; call 1000100; call 2000100] self)) = 3%nat.
Proof.
  intros failure call self.
  refine (proj1 (unaddable_period_runs_every_time
                   [call 100; call 1000100; call 2000100] self _)).
  intros env [<-|[<-|[<-|[]]]]; split; solve [reflexivity | simpl; discriminate].
Defined.

End PeriodicOperationMore.

(** ** More on [sleep_until_next_operation] *)

Module SchedulerMore.

Import PeriodicOperation.

(** [min] does not depend on the order of the list. *)
Lemma min_permutation (l l' : list datetime) :
  Permutation l l' -> Py.min l = Py.min l'.
Proof.
  intros Hperm.
  destruct l as [|x r], l' as [|y r'];
    [reflexivity
    |apply Permutation_nil in Hperm; discriminate
    |apply Permutation_sym, Permutation_nil in Hperm; discriminate
    |].
  simpl. f_equal.
  assert (Hbound : forall a rest z, In z (a :: rest) -> fold_left Z.min rest a <= z).
  { intros a rest z [<-|Hin]; [apply fold_min_le|now apply fold_min_lower_bound]. }
  assert (Hmember : forall a rest, In (fold_left Z.min rest a) (a :: rest)).
  { intros a rest. destruct (fold_min_attained rest a) as [->|Hin]; [now left|now right]. }
  apply Z.le_antisymm.
  - apply Hbound. apply (Permutation_in _ (Permutation_sym Hperm)), Hmember.
  - apply Hbound. apply (Permutation_in _ Hperm), Hmember.
Qed.

(** X9.  The wait does not depend on the order in which the tasks are
    listed. *)
Theorem sleep_until_next_operation_order_irrelevant :
  forall (utcnow : datetime) (operations operations' : list t),
    Permutation operations operations' ->
    sleep_until_next_operation utcnow operations tt
      = sleep_until_next_operation utcnow operations' tt.
Proof.
  intros utcnow operations operations' Hperm.
  unfold sleep_until_next_operation.
  now rewrite (min_permutation _ _ (Permutation_map next_run_time Hperm)).
Qed.

Lemma sleep_until_next_operation_order_irrelevant_witness :
  let due_at t := mk "task" 3600000000 t None None in
  sleep_until_next_operation 1000 [due_at 5000; due_at 2000] tt
    = sleep_until_next_operation 1000 [due_at 2000; due_at 5000] tt.
Proof.
  intros due_at. apply sleep_until_next_operation_order_irrelevant. apply perm_swap.
Defined.

End SchedulerMore.

(** ** More on the [HEAD] variant of [PeriodicOperation.run] *)

Module VariantsMore.

Import PeriodicOperation.

(** X11.  The [HEAD] variant with a [timedelta] period never raises.  A
    task that has never run is due.  One that has run is due when the
    clock has reached [_last_run] plus the period, provided that sum is a
    [datetime].  A due call calls the operation once and records in
    [_last_run] the clock as read in the [finally] clause, whether the
    operation returned or raised; a call that is not due does nothing.
    When the sum is no [datetime] the due test raises [OverflowError],
    which [run] catches: the operation is not called and [_last_run]
    stays. *)
Theorem head_run_records_last_run :
  forall (env : RunEnv) (td : timedelta) (h : PeriodicOperationHEAD.t),
    PeriodicOperationHEAD._period h = Timedelta td ->
    outcome_of (PeriodicOperationHEAD.run env h) = Returns tt /\
    (PeriodicOperationHEAD._last_run h = None ->
     head_decision env h = Returns true) /\
    (forall last, PeriodicOperationHEAD._last_run h = Some last ->
     head_decision env h
       = if datetime_in_range (last + td) then Returns (last + td <=? at_check env)
         else Raises (OverflowError "date value out of range")) /\
    (head_decision env h = Returns true ->
     count is_operation_call (trace_of (PeriodicOperationHEAD.run env h)) = 1%nat /\
     PeriodicOperationHEAD._last_run (state_of (PeriodicOperationHEAD.run env h))
       = Some (at_finally env)) /\
    (head_decision env h = Returns false ->
     PeriodicOperationHEAD.run env h = (Returns tt, h, [])) /\
    (forall e, head_decision env h = Raises e ->
     count is_operation_call (trace_of (PeriodicOperationHEAD.run env h)) = 0%nat /\
     PeriodicOperationHEAD._last_run (state_of (PeriodicOperationHEAD.run env h))
       = PeriodicOperationHEAD._last_run h).
Proof.
  intros env td h Hperiod.
  rewrite VariantsFacts.head_run_eq.
  split; [|split; [|split; [|split; [|split]]]].
  - unfold head_report.
    destruct (head_decision env h) as [[|]|e']; [|reflexivity|];
      [destruct (operation env) as [[]|e]; [reflexivity|]|];
      now destruct (should_warn env _ _ _).
  - intros Hlast. unfold head_decision. now rewrite Hlast.
  - intros last Hlast. unfold head_decision, PeriodicOperationHEAD.datetime_add, datetime_plus.
    rewrite Hlast, Hperiod. now destruct (datetime_in_range (last + td)).
  - intros ->. unfold head_report.
    destruct (operation env) as [[]|e]; [split; reflexivity|].
    destruct (should_warn env _ _ _); split; reflexivity.
  - intros ->. reflexivity.
  - intros e ->. unfold head_report.
    destruct (should_warn env _ _ _); split; reflexivity.
Qed.

Lemma head_run_records_last_run_witness :
  let env := mkRunEnv 100 (Raises (mkException "Exception" "network unreachable")) 105 106 107 in
  let h := PeriodicOperationHEAD.__init__ "refresh" (Timedelta 30000000) in
  PeriodicOperationHEAD._last_run (state_of (PeriodicOperationHEAD.run env h)) = Some 105.
Proof.
  intros env h.
  refine (proj2 (proj1 (proj2 (proj2 (proj2 (head_run_records_last_run env 30000000 h _))))
                   _));
    reflexivity.
Defined.

(** A task of the [HEAD] variant that has run and whose period is a number:
    the due test raises [TypeError], which [run] catches. *)
Lemma head_number_step (env : RunEnv) (secs : Z) (last : datetime)
    (h : PeriodicOperationHEAD.t) :
  PeriodicOperationHEAD._period h = Number secs ->
  PeriodicOperationHEAD._last_run h = Some last ->
  outcome_of (PeriodicOperationHEAD.run env h) = Returns tt /\
  called_operation (trace_of (PeriodicOperationHEAD.run env h)) = false /\
  PeriodicOperationHEAD._period (state_of (PeriodicOperationHEAD.run env h)) = Number secs /\
  PeriodicOperationHEAD._last_run (state_of (PeriodicOperationHEAD.run env h)) = Some last.
Proof.
  intros Hperiod Hlast.
  unfold PeriodicOperationHEAD.run, PeriodicOperationHEAD.report_failure,
    try_except, try_finally, bind, get, modify, emit, perform, ret.
  simpl. rewrite Hperiod, Hlast. simpl.
  destruct (should_warn env _ _ _); simpl; repeat split; assumption.
Qed.

Lemma head_number_decisions (secs : Z) (envs : list RunEnv) :
  forall (last : datetime) (h : PeriodicOperationHEAD.t),
    PeriodicOperationHEAD._period h = Number secs ->
    PeriodicOperationHEAD._last_run h = Some last ->
    decisions PeriodicOperationHEAD.run envs h = repeat false (List.length envs).
Proof.
  induction envs as [|env rest IH]; intros last h Hperiod Hlast; [reflexivity|].
  destruct (head_number_step env secs last h Hperiod Hlast) as (_ & Hcalled & Hp & Hl).
  unfold decisions in *. cbn [call_traces map List.length repeat].
  now rewrite Hcalled, (IH last _ Hp Hl).
Qed.

(** X12.  With a number for period, a task of the [HEAD] variant calls its
    operation at the first call of [run] and never again: from the second
    call on, adding the number to [_last_run] raises [TypeError], which
    [run] catches and reports like a failure of the operation. *)
Theorem head_number_period_runs_once :
  forall (name : string) (secs : Z) (env : RunEnv) (envs : list RunEnv),
    decisions PeriodicOperationHEAD.run (env :: envs)
        (PeriodicOperationHEAD.__init__ name (Number secs))
      = true :: repeat false (List.length envs) /\
    (forall env' : RunEnv,
        outcome_of (PeriodicOperationHEAD.run env'
                      (state_of (PeriodicOperationHEAD.run env
                                   (PeriodicOperationHEAD.__init__ name (Number secs)))))
          = Returns tt).
Proof.
  intros name secs env envs.
  assert (Hfirst :
    called_operation (trace_of (PeriodicOperationHEAD.run env
                                  (PeriodicOperationHEAD.__init__ name (Number secs)))) = true /\
    PeriodicOperationHEAD._period
      (state_of (PeriodicOperationHEAD.run env
                   (PeriodicOperationHEAD.__init__ name (Number secs)))) = Number secs /\
    PeriodicOperationHEAD._last_run
      (state_of (PeriodicOperationHEAD.run env
                   (PeriodicOperationHEAD.__init__ name (Number secs))))
      = Some (at_finally env)).
  { unfold PeriodicOperationHEAD.run, PeriodicOperationHEAD.report_failure,
      try_except, try_finally, bind, get, modify, emit, perform, ret.
    simpl. destruct (operation env) as [[]|e]; simpl; repeat split. }
  destruct Hfirst as (Hcalled & Hperiod & Hlast).
  split.
  - unfold decisions. cbn [call_traces map]. rewrite Hcalled. f_equal.
    apply (head_number_decisions secs envs (at_finally env) _ Hperiod Hlast).
  - intros env'. apply (head_number_step env' secs (at_finally env) _ Hperiod Hlast).
Qed.

(** X13.  The first call of a new task.  The [HEAD] variant calls the
    operation whatever the clock reads; the release variant calls it
    exactly when the clock has not gone back behind the reading taken by
    the constructor. *)
Theorem first_call_of_each_variant :
  forall (env : RunEnv) (created : datetime) (name : string) (period : PeriodArg),
    called_operation
      (trace_of (PeriodicOperationHEAD.run env (PeriodicOperationHEAD.__init__ name period)))
      = true /\
    called_operation (trace_of (run env (__init__ created name period)))
      = (created <=? at_check env).
Proof.
  intros env created name period. split.
  - unfold PeriodicOperationHEAD.run, PeriodicOperationHEAD.report_failure,
      try_except, try_finally, bind, get, modify, emit, perform, ret.
    simpl. destruct (operation env) as [[]|e]; simpl; reflexivity.
  - destruct (created <=? at_check env) eqn:Hdue.
    + unfold called_operation.
      destruct (PeriodicOperationFacts.run_due_facts env (__init__ created name period) Hdue)
        as (_ & -> & _).
      reflexivity.
    + now rewrite PeriodicOperationFacts.run_not_due by exact Hdue.
Qed.

End VariantsMore.

(** ** More on [LogUploadHandler] *)

Module LogUploadMore.

Import LogUploadHandler LogUploadFacts.

(** Closing the cases of an analysis: the sleep is of 3600 seconds, and the
    rest follows from the equations collected on the way. *)
Ltac close_case :=
  try change (inject_Z (seconds LOG_UPLOAD_PERIOD)) with 3600%Q in *;
  congruence.

(** X14.  A due cycle in which everything works: the refresh, the
    collection, one success event carrying the size of the archive, the
    upload, and the sleep, in this order and nothing else; the time of the
    cycle is recorded. *)
Theorem successful_cycle :
  forall (env : CycleEnv) (self : t) (archive_path : string) (archive_size : Z),
    cycle_due env self = true ->
    protocol self = Some tt ->
    update_host_plugin_from_goal_state env = Returns tt ->
    new_log_collector env = Returns tt ->
    collect_logs env = Returns archive_path ->
    getsize env archive_path = Returns archive_size ->
    put_vm_logs env = Returns tt ->
    outcome_of (iteration env self) = Returns tt /\
    trace_of (iteration env self)
      = [UpdateHostPluginCalled; CollectLogsCalled;
         LoggerInfo (success_message archive_size (elapsed_after_collect env));
         AddEvent true (success_message archive_size (elapsed_after_collect env));
         PutVmLogsCalled; TimeSleep 3600] /\
    last_log_upload_time (state_of (iteration env self)) = Some (at_done env).
Proof.
  intros env self archive_path archive_size Hdue Hprotocol Hupdate Hnew Hcollect Hsize Hput.
  unfold cycle_due in Hdue.
  repeat split; unfold_methods; split_cases; close_case.
Qed.

Lemma successful_cycle_witness :
  let env := mkCycleEnv 10 11 (Returns tt) 12 (Returns tt) (Returns "/var/lib/waagent/logs.zip")
               5 (fun _ => Returns 1234) 6 (Returns tt) 20 false in
  last_log_upload_time (state_of (iteration env (set_protocol __init__))) = Some 20 /\
  count is_success_event (trace_of (iteration env (set_protocol __init__))) = 1%nat.
Proof.
  intros env.
  destruct (successful_cycle env (set_protocol __init__) "/var/lib/waagent/logs.zip" 1234
              eq_refl eq_refl eq_refl eq_refl eq_refl eq_refl eq_refl)
    as (_ & Htrace & Hlast).
  split; [exact Hlast|]. rewrite Htrace. reflexivity.
Defined.

(** X15.  When the collection works and the upload raises, the exception
    leaves [collect_and_upload_logs]: the success event has been emitted
    already and no failure event follows.  The loop catches it and logs
    its own warning, and the time of the cycle is not recorded. *)
Theorem upload_failure_escapes_collect_and_upload :
  forall (env : CycleEnv) (self : t) (archive_path : string) (archive_size : Z)
         (e : Exception),
    protocol self = Some tt ->
    new_log_collector env = Returns tt ->
    collect_logs env = Returns archive_path ->
    getsize env archive_path = Returns archive_size ->
    put_vm_logs env = Raises e ->
    outcome_of (collect_and_upload_logs env self) = Raises e /\
    filter is_telemetry (trace_of (collect_and_upload_logs env self))
      = [AddEvent true (success_message archive_size (elapsed_after_collect env))] /\
    (cycle_due env self = true ->
     update_host_plugin_from_goal_state env = Returns tt ->
     outcome_of (iteration env self) = Returns tt /\
     filter is_warning (trace_of (iteration env self)) = [LoggerWarn (main_loop_warning e)] /\
     filter is_telemetry (trace_of (iteration env self))
       = [AddEvent true (success_message archive_size (elapsed_after_collect env))] /\
     last_log_upload_time (state_of (iteration env self))
       = Some (match last_log_upload_time self with
               | Some last => last
               | None => at_first env - LOG_UPLOAD_PERIOD
               end)).
Proof.
  intros env self archive_path archive_size e Hprotocol Hnew Hcollect Hsize Hput.
  unfold cycle_due.
  repeat split; unfold_methods; split_cases; close_case.
Qed.

Lemma upload_failure_escapes_collect_and_upload_witness :
  let failure := mkException "HttpError" "upload refused" in
  let env := mkCycleEnv 10 11 (Returns tt) 12 (Returns tt) (Returns "/var/lib/waagent/logs.zip")
               5 (fun _ => Returns 1234) 6 (Raises failure) 20 false in
  outcome_of (collect_and_upload_logs env (set_protocol __init__)) = Raises failure.
Proof.
  intros failure env.
  refine (proj1 (upload_failure_escapes_collect_and_upload env (set_protocol __init__)
                   "/var/lib/waagent/logs.zip" 1234 failure _ _ _ _ _));
    reflexivity.
Defined.

(** X16.  An iteration that is not due does nothing but sleep for the hour. *)
Theorem iteration_not_due_only_sleeps :
  forall (env : CycleEnv) (self : t) (last : datetime),
    last_log_upload_time self = Some last ->
    at_check env < last + LOG_UPLOAD_PERIOD ->
    iteration env self = (Returns tt, self, [TimeSleep 3600]).
Proof.
  intros env self last Hlast Hearly. apply Z.leb_gt in Hearly.
  unfold_methods. split_cases; close_case.
Qed.

Lemma iteration_not_due_only_sleeps_witness :
  let env := mkCycleEnv 10 11 (Returns tt) 12 (Returns tt) (Returns "/var/lib/waagent/logs.zip")
               5 (fun _ => Returns 1234) 6 (Returns tt) 20 false in
  let self := mk (Some 0) (Some tt) (Some tt) true in
  iteration env self = (Returns tt, self, [TimeSleep 3600]).
Proof.
  intros env self. refine (iteration_not_due_only_sleeps env self 0 _ _); reflexivity.
Defined.

(** X17.  The first iteration, when no upload time is recorded yet.  The
    handler takes the clock less one hour as the last time, so the cycle
    is due exactly when the clock does not go back between that reading
    and the due test; with a protocol at hand the refresh is then the
    first thing done.  Whatever happens in the iteration, a time is
    recorded when it ends. *)
Theorem first_iteration_is_due :
  forall (env : CycleEnv) (self : t),
    last_log_upload_time self = None ->
    cycle_due env self = (at_first env <=? at_check env) /\
    last_log_upload_time (state_of (iteration env self)) <> None /\
    (at_first env <= at_check env ->
     protocol self = Some tt ->
     hd_error (trace_of (iteration env self)) = Some UpdateHostPluginCalled) /\
    (at_check env < at_first env ->
     iteration env self
       = (Returns tt,
          set_last_log_upload_time (at_first env - LOG_UPLOAD_PERIOD) self,
          [TimeSleep 3600])).
Proof.
  intros env self Hlast.
  assert (Hsame : at_first env - LOG_UPLOAD_PERIOD + LOG_UPLOAD_PERIOD = at_first env) by lia.
  split; [|split; [|split]].
  - unfold cycle_due. now rewrite Hlast, Hsame.
  - unfold_methods. split_cases; congruence.
  - intros Hclock Hprotocol. apply Z.leb_le in Hclock. rewrite <- Hsame in Hclock.
    unfold_methods. split_cases; congruence.
  - intros Hclock. apply Z.leb_gt in Hclock. rewrite <- Hsame in Hclock.
    unfold_methods. split_cases; close_case.
Qed.

Lemma first_iteration_is_due_witness :
  let env := mkCycleEnv 10 11 (Returns tt) 12 (Returns tt) (Returns "/var/lib/waagent/logs.zip")
               5 (fun _ => Returns 1234) 6 (Returns tt) 20 false in
  hd_error (trace_of (iteration env (set_protocol __init__))) = Some UpdateHostPluginCalled.
Proof.
  intros env.
  refine (proj1 (proj2 (proj2 (first_iteration_is_due env (set_protocol __init__) _))) _ _).
  - reflexivity.
  - simpl. discriminate.
  - reflexivity.
Defined.

(** Without a protocol an iteration reaches no collaborator. *)
Lemma iteration_without_protocol (env : CycleEnv) (s : t) :
  protocol s = None ->
  forallb is_quiet (trace_of (iteration env s)) = true /\
  protocol (state_of (iteration env s)) = None.
Proof.
  intros Hprotocol. unfold_methods. split_cases; split; congruence.
Qed.

Lemma loop_without_protocol (cycles : list CycleEnv) :
  forall s : t,
    protocol s = None ->
    forallb is_quiet (trace_of (loop cycles s)) = true.
Proof.
  induction cycles as [|env rest IH]; intros s Hprotocol.
  - cbn [loop]. unfold bind, get, ret, trace_of. now destruct (should_run s).
  - destruct (should_run s) eqn:Hrun.
    + rewrite (loop_cons env rest s Hrun). cbv zeta. unfold trace_of at 1. cbn [snd].
      destruct (iteration_without_protocol env s Hprotocol) as [Hquiet Hnone].
      rewrite forallb_app, Hquiet. cbn [andb].
      apply IH. now destruct (stop_called env).
    + now rewrite (loop_stopped _ s Hrun).
Qed.

Lemma daemon_without_init (get_protocol_util get_protocol : Outcome unit)
    (cycles : list CycleEnv) (s : t) :
  daemon false get_protocol_util get_protocol cycles s = loop cycles s.
Proof.
  unfold daemon, bind, ret. now destruct (loop cycles s) as [[o s'] t'].
Qed.

(** X18.  A handler whose [daemon] runs without [init_protocols] has no
    protocol, and never gets one: however many iterations it makes, it
    calls no collaborator and emits no event; all it does is log a
    warning and sleep. *)
Theorem daemon_without_protocol_is_quiet :
  forall (get_protocol_util get_protocol : Outcome unit) (cycles : list CycleEnv),
    forallb is_quiet
      (trace_of (daemon false get_protocol_util get_protocol cycles __init__)) = true /\
    (forall env : CycleEnv,
        at_first env <= at_check env ->
        trace_of (iteration env __init__)
          = [LoggerWarn (main_loop_warning
                           (AttributeError
                              "'NoneType' object has no attribute 'update_host_plugin_from_goal_state'"));
             TimeSleep 3600]).
Proof.
  intros get_protocol_util get_protocol cycles. split.
  - rewrite daemon_without_init. now apply loop_without_protocol.
  - intros env Hclock. apply Z.leb_le in Hclock.
    assert (Hdue : (at_first env - LOG_UPLOAD_PERIOD + LOG_UPLOAD_PERIOD <=? at_check env)
                   = true)
      by (rewrite <- Hclock; f_equal; lia).
    unfold_methods. simpl. rewrite Hdue. reflexivity.
Qed.

Lemma daemon_without_protocol_is_quiet_witness :
  let env := mkCycleEnv 10 11 (Returns tt) 12 (Returns tt) (Returns "/var/lib/waagent/logs.zip")
               5 (fun _ => Returns 1234) 6 (Returns tt) 20 false in
  count is_warning (trace_of (iteration env __init__)) = 1%nat.
Proof.
  intros env.
  rewrite (proj2 (daemon_without_protocol_is_quiet (Returns tt) (Returns tt) []) env);
    [reflexivity|simpl; discriminate].
Defined.

(** X19.  The loop reads [should_run] once per iteration.  Found false, the
    loop ends at once; cleared by [stop] while an iteration runs, that
    iteration goes to its end, sleep included, and no other one starts. *)
Theorem loop_stops_at_next_test :
  forall (env : CycleEnv) (rest : list CycleEnv) (self : t),
    (should_run self = false ->
     loop (env :: rest) self = (Returns Exited, self, [])) /\
    (should_run self = true ->
     stop_called env = true ->
     loop (env :: rest) self
       = (Returns Exited,
          set_should_run false (state_of (iteration env self)),
          trace_of (iteration env self))).
Proof.
  intros env rest self. split.
  - apply loop_stopped.
  - intros Hrun Hstop. rewrite (loop_cons env rest self Hrun). cbv zeta. rewrite Hstop.
    rewrite loop_stopped by reflexivity.
    unfold outcome_of, state_of, trace_of. cbn [fst snd]. now rewrite app_nil_r.
Qed.

Lemma loop_stops_at_next_test_witness :
  let env := mkCycleEnv 10 11 (Returns tt) 12 (Returns tt) (Returns "/var/lib/waagent/logs.zip")
               5 (fun _ => Returns 1234) 6 (Returns tt) 20 true in
  count is_sleep (trace_of (loop [env; env; env] (set_protocol __init__))) = 1%nat.
Proof.
  intros env.
  rewrite (proj2 (loop_stops_at_next_test env [env; env] (set_protocol __init__)));
    reflexivity.
Defined.

(** X20.  [init_protocols] runs before the loop and outside its [try]: when
    [get_protocol_util] or [get_protocol] raises, the exception leaves
    [daemon] and no iteration is made (in the second case with the
    protocol util already stored).  When both return, the loop starts with
    both attributes set. *)
Theorem daemon_init_failure_is_fatal :
  forall (get_protocol_util get_protocol : Outcome unit) (cycles : list CycleEnv)
         (self : t) (e : Exception),
    (get_protocol_util = Raises e ->
     daemon true get_protocol_util get_protocol cycles self = (Raises e, self, [])) /\
    (get_protocol_util = Returns tt ->
     get_protocol = Raises e ->
     daemon true get_protocol_util get_protocol cycles self
       = (Raises e, set_protocol_util self, [])) /\
    (get_protocol_util = Returns tt ->
     get_protocol = Returns tt ->
     daemon true get_protocol_util get_protocol cycles self
       = loop cycles (set_protocol (set_protocol_util self))).
Proof.
  intros get_protocol_util get_protocol cycles self e.
  split; [|split].
  - intros ->. reflexivity.
  - intros -> ->. reflexivity.
  - intros -> ->. unfold daemon, init_protocols, bind, perform, modify. simpl.
    now destruct (loop cycles _) as [[o s'] t'].
Qed.

Lemma daemon_init_failure_is_fatal_witness :
  let failure := mkException "ProtocolError" "no endpoint" in
  let env := mkCycleEnv 10 11 (Returns tt) 12 (Returns tt) (Returns "/var/lib/waagent/logs.zip")
               5 (fun _ => Returns 1234) 6 (Returns tt) 20 false in
  daemon true (Returns tt) (Raises failure) [env; env] __init__
    = (Raises failure, set_protocol_util __init__, []).
Proof.
  intros failure env.
  refine (proj1 (proj2 (daemon_init_failure_is_fatal (Returns tt) (Raises failure)
                          [env; env] __init__ failure)) _ _);
    reflexivity.
Defined.

(** Counting in the trace of the loop what is counted in each iteration. *)
Lemma loop_count_le (f g : Event -> bool) :
  (forall env s, (count f (trace_of (iteration env s))
                  <= count g (trace_of (iteration env s)))%nat) ->
  forall cycles s, (count f (trace_of (loop cycles s)) <= count g (trace_of (loop cycles s)))%nat.
Proof.
  intros Hstep. induction cycles as [|env rest IH]; intros s.
  - cbn [loop]. unfold bind, get, ret, trace_of. now destruct (should_run s).
  - destruct (should_run s) eqn:Hrun.
    + rewrite (loop_cons env rest s Hrun). cbv zeta.
      set (after := loop rest _).
      change ((count f (trace_of (iteration env s) ++ trace_of after)
               <= count g (trace_of (iteration env s) ++ trace_of after))%nat).
      rewrite !count_app.
      apply Nat.add_le_mono; [apply Hstep|apply IH].
    + rewrite (loop_stopped _ s Hrun). reflexivity.
Qed.

(** X21.  The books of the loop, over any run of it: an upload is made only
    after a success event, a collection is started and an event (of
    success or of failure) is emitted only after a refresh has been
    asked for, and there is at most one refresh for each sleep. *)
Theorem loop_event_accounting :
  forall (cycles : list CycleEnv) (self : t),
    (count is_upload (trace_of (loop cycles self))
     <= count is_success_event (trace_of (loop cycles self)))%nat /\
    (count is_telemetry (trace_of (loop cycles self))
     <= count is_refresh (trace_of (loop cycles self)))%nat /\
    (count is_collect (trace_of (loop cycles self))
     <= count is_refresh (trace_of (loop cycles self)))%nat /\
    (count is_refresh (trace_of (loop cycles self))
     <= count is_sleep (trace_of (loop cycles self)))%nat.
Proof.
  intros cycles self.
  repeat split; apply loop_count_le; intros env s;
    unfold_methods; unfold count; split_cases; auto.
Qed.

End LogUploadMore.
